(** * Magnetic-survey correction pipeline: model and verified properties

    A shallow embedding of the numerical core and of the two event
    handlers ([load_excel], [process_and_plot]) of the geomagnetic
    correction application.

    Numbers.  The program computes on NumPy [float64] arrays.  Here a
    number is a binary64 value ([PrimFloat.float]): every sum,
    difference, product, quotient and square root is rounded to nearest
    (ties to even), overflows to an infinity and keeps the sign of zero,
    as the program's arithmetic does; NaN is a single value.

    Arrays.  Every array handed to the numerical functions is built from
    the three magnetic columns, so an [N x 3] matrix is a list of rows
    with three components; geo-positions are rows with four. *)

From Stdlib Require Import Floats.
From Stdlib Require Import String Ascii ZArith Uint63 Reals Lra List Bool Arith Lia.
Import ListNotations.

Set Implicit Arguments.
#[local] Set Warnings "-inexact-float".

(* ================================================================== *)
(** ** Rows with three components and NumPy's axis-0 reductions *)
(* ================================================================== *)

Record vec3 (A : Type) : Type := mk3 { vx : A; vy : A; vz : A }.

Arguments mk3 {A} _ _ _.
Arguments vx {A} _.
Arguments vy {A} _.
Arguments vz {A} _.

(** The three columns of an [N x 3] array. *)
Inductive axis : Type := AX | AY | AZ.

Definition comp {A} (j : axis) (v : vec3 A) : A :=
  match j with AX => vx v | AY => vy v | AZ => vz v end.

Definition vmap {A B} (f : A -> B) (v : vec3 A) : vec3 B :=
  mk3 (f (vx v)) (f (vy v)) (f (vz v)).

Definition vzip {A B C} (f : A -> B -> C) (u : vec3 A) (v : vec3 B) : vec3 C :=
  mk3 (f (vx u) (vx v)) (f (vy u) (vy v)) (f (vz u) (vz v)).

(** [(row > t).any()] for one row. *)
Definition vany (v : vec3 bool) : bool := vx v || vy v || vz v.

Definition matrix : Type := list (vec3 float).

Definition column {A} (j : axis) (m : list (vec3 A)) : list A := map (comp j) m.

(** Reduction of every column by [f] ([axis=0]). *)
Definition reduce_axis0 {A B} (f : list A -> B) (m : list (vec3 A)) : vec3 B :=
  mk3 (f (column AX m)) (f (column AY m)) (f (column AZ m)).

(** [shape[0]]. *)
Definition shape0 {A} (m : list A) : nat := length m.

Module Np.

Local Open Scope float_scope.

(** A row count (an [int64]) converted to [float64], as NumPy does
    before it divides a sum by the count. *)
Definition float_of_count (n : nat) : float :=
  PrimFloat.of_uint63 (Uint63.of_Z (Z.of_nat n)).

(** [np.sum], that is [np.add.reduce]: the sum starts from the
    identity [0.0] and the entries are added in order, each addition
    rounded.  Along axis 0 NumPy adds the rows one after the other; the
    entries of a one-dimensional array are added in this order as long
    as they are fewer than 8 (longer ones are added in blocks, which
    can change the last digits of the sum of the weights). *)
Definition sum (l : list float) : float := fold_left PrimFloat.add l 0.

(** [np.mean]: the sum over the count ([0/0 = NaN] when empty). *)
Definition mean (l : list float) : float :=
  sum l / float_of_count (length l).

(** [np.std] with [ddof=0]: deviations from the mean, squared, averaged,
    then the square root. *)
Definition std (l : list float) : float :=
  let arrmean := sum l / float_of_count (length l) in
  let x := map (fun a => a - arrmean) l in
  let x := map (fun d => d * d) x in
  PrimFloat.sqrt (sum x / float_of_count (length l)).

Definition mean_axis0 (m : matrix) : vec3 float := reduce_axis0 mean m.
Definition std_axis0 (m : matrix) : vec3 float := reduce_axis0 std m.

(** [np.ones(n)]. *)
Definition ones (n : nat) : list float := repeat 1 n.

End Np.

(* ================================================================== *)
(** ** Exceptions and results *)
(* ================================================================== *)

Inductive exn_kind : Type :=
| ValueError | IndexError | KeyError | ZeroDivisionError.

Record exn : Type := mkExn { kind : exn_kind; message : string }.

Inductive outcome (A : Type) : Type :=
| Done (a : A)
| Raise (e : exn).

Arguments Done {A} _.
Arguments Raise {A} _.

Module NpAverage.

Local Open Scope float_scope.

(** [np.average(a, axis=0, weights=w)] for a one-dimensional [w]: the
    weights must match the rows in number and must not sum to zero
    ([scl == 0.0], which holds of either zero and not of NaN); the
    result is [sum(a * w) / sum(w)] per column. *)
Definition average_axis0 (a : matrix) (wgt : list float) : outcome (vec3 float) :=
  if negb (Nat.eqb (shape0 wgt) (shape0 a)) then
    Raise (mkExn ValueError
             "Length of weights not compatible with specified axis."%string)
  else
    let scl := Np.sum wgt in
    if scl =? 0 then
      Raise (mkExn ZeroDivisionError
               "Weights sum to zero, can't be normalized"%string)
    else
      Done (reduce_axis0
              (fun col => Np.sum (map (fun aw => fst aw * snd aw)
                                      (combine col wgt)) / scl) a).

End NpAverage.

(* ================================================================== *)
(** ** The numerical core (source lines 19-31) *)
(* ================================================================== *)

(** Default arguments of the three functions. *)
Definition default_threshold : float := 3%float.
Definition default_factor : float := 1%float.

(** [detect_outliers_zscore(data, threshold=3)]. *)
Definition detect_outliers_zscore (data : matrix) (threshold : float) : list bool :=
  let mean := Np.mean_axis0 data in
  let std := Np.std_axis0 data in
  let z := map (fun row => vmap PrimFloat.abs
                             (vzip PrimFloat.div (vzip PrimFloat.sub row mean) std))
               data in
  let outlier_mask :=
    map (fun zr => vany (vmap (fun v => PrimFloat.ltb threshold v) zr)) z in
  outlier_mask.

(** [weighted_average(data, weights=None)]. *)
Definition weighted_average (data : matrix) (weights : option (list float))
  : outcome (vec3 float) :=
  let weights :=
    match weights with
    | None => Np.ones (shape0 data)
    | Some w => w
    end in
  let weights := map (fun w => PrimFloat.div w (Np.sum weights)) weights in
  NpAverage.average_axis0 data weights.

(** [correct_main_data(main_vec, aux_mean, factor=1.0)], with [aux_mean]
    and [factor] broadcast over the rows. *)
Definition correct_main_data (main_vec : matrix) (aux_mean : vec3 float)
    (factor : float) : matrix :=
  map (fun row =>
         vzip PrimFloat.add row
              (vmap (PrimFloat.mul factor) (vzip PrimFloat.sub aux_mean row)))
      main_vec.

(* ================================================================== *)
(** ** Survey tables (source lines 13-17, 33-57) *)
(* ================================================================== *)

Local Open Scope string_scope.

Definition FIELDS : list string :=
  [ "经度(°)"; "纬度(°)"; "垂向深度(m)"; "井口海拔(m)";
    "X轴分量(nT)"; "Y轴分量(nT)"; "Z轴分量(nT)" ].

Definition VECTOR_FIELDS : list string :=
  [ "X轴分量(nT)"; "Y轴分量(nT)"; "Z轴分量(nT)" ].

(** One row under the seven labels of [FIELDS], in that order.  Both
    table widgets are created with these seven headers (lines 132-139)
    and are only ever repopulated from a frame restricted to [FIELDS]
    (lines 203-206), so a table is a list of such rows. *)
Record rec7 (A : Type) : Type := mk7 {
  f_lon : A; f_lat : A; f_depth : A; f_elev : A;
  f_x : A; f_y : A; f_z : A
}.

Arguments mk7 {A} _ _ _ _ _ _ _.
Arguments f_lon {A} _.
Arguments f_lat {A} _.
Arguments f_depth {A} _.
Arguments f_elev {A} _.
Arguments f_x {A} _.
Arguments f_y {A} _.
Arguments f_z {A} _.

Definition map7 {A B} (f : A -> B) (r : rec7 A) : rec7 B :=
  mk7 (f (f_lon r)) (f (f_lat r)) (f (f_depth r)) (f (f_elev r))
      (f (f_x r)) (f (f_y r)) (f (f_z r)).

(** Geo-position rows: longitude, latitude, depth, elevation. *)
Record vec4 (A : Type) : Type := mk4 { g_lon : A; g_lat : A; g_depth : A; g_elev : A }.

Arguments mk4 {A} _ _ _ _.
Arguments g_lon {A} _.
Arguments g_lat {A} _.
Arguments g_depth {A} _.
Arguments g_elev {A} _.

(** A [QTableWidget]: each cell holds an item with its text, or no item. *)
Definition table : Type := list (rec7 (option string)).

(** The frame produced by [table_to_dataframe]: seven [float64] columns,
    NaN where the text did not parse. *)
Definition frame : Type := list (rec7 float).

(** [df[VECTOR_FIELDS]]. *)
Definition vector_columns (df : frame) : matrix :=
  map (fun r => mk3 (f_x r) (f_y r) (f_z r)) df.

(** [df[["经度(°)", "纬度(°)", "垂向深度(m)", "井口海拔(m)"]]]. *)
Definition geo_columns (df : frame) : list (vec4 float) :=
  map (fun r => mk4 (f_lon r) (f_lat r) (f_depth r) (f_elev r)) df.

(** [.dropna()]: keep the rows without a missing value. *)
Definition dropna3 (m : matrix) : matrix :=
  filter (fun v => negb (PrimFloat.is_nan (vx v) || PrimFloat.is_nan (vy v) || PrimFloat.is_nan (vz v))) m.

Definition dropna4 (m : list (vec4 float)) : list (vec4 float) :=
  filter (fun g => negb (PrimFloat.is_nan (g_lon g) || PrimFloat.is_nan (g_lat g)
                         || PrimFloat.is_nan (g_depth g) || PrimFloat.is_nan (g_elev g))) m.

(** A sheet as [pd.read_excel] returns it: column labels and rows of
    cells, a cell standing for the text [str] gives of its value. *)
Record dataframe : Type := mkDf {
  columns : list string;
  rows : list (list string)
}.

(** [col in df.columns]. *)
Definition has_column (col : string) (df : dataframe) : bool :=
  existsb (String.eqb col) (columns df).

Fixpoint index_of (col : string) (cols : list string) : option nat :=
  match cols with
  | [] => None
  | c :: cs =>
      if String.eqb col c then Some 0
      else match index_of col cs with
           | Some i => Some (S i)
           | None => None
           end
  end.

(** [df[FIELDS]]: the seven columns by label, [KeyError] when one is
    absent. *)
Definition select_fields (df : dataframe) : outcome (list (rec7 string)) :=
  match map (fun col => index_of col (columns df)) FIELDS with
  | [Some i0; Some i1; Some i2; Some i3; Some i4; Some i5; Some i6] =>
      Done (map (fun row =>
                   mk7 (nth i0 row "") (nth i1 row "") (nth i2 row "")
                       (nth i3 row "") (nth i4 row "") (nth i5 row "")
                       (nth i6 row ""))
                (rows df))
  | _ => Raise (mkExn KeyError "not in index")
  end.

(** [dataframe_to_table(df, table)] for a frame restricted to [FIELDS]:
    every cell becomes an item holding the value's text. *)
Definition dataframe_to_table (df : list (rec7 string)) : table :=
  map (map7 (@Some string)) df.

(* ================================================================== *)
(** ** Texts, the colour console and the application state *)
(* ================================================================== *)

Definition nl : string := String (ascii_of_nat 10) EmptyString.

(** A formatted text: literal parts and formatted values of an
    f-string, in order. *)
Inductive piece : Type :=
| Lit (s : string)
| ShowNat (n : nat)
| ShowVec (v : vec3 float).

Definition text : Type := list piece.

Fixpoint contains (needle hay : string) : bool :=
  String.prefix needle hay
  || match hay with
     | EmptyString => false
     | String _ hay' => contains needle hay'
     end.

Definition is_space (c : ascii) : bool :=
  let n := nat_of_ascii c in
  Nat.eqb n 32 || (Nat.leb 9 n && Nat.leb n 13).

Fixpoint lstrip (s : string) : string :=
  match s with
  | String c s' => if is_space c then lstrip s' else s
  | EmptyString => EmptyString
  end.

(** [needle in text]: the tags looked for contain letters and brackets
    only, so they can only occur in a literal part. *)
Definition text_contains (needle : string) (t : text) : bool :=
  existsb (fun p => match p with Lit s => contains needle s | _ => false end) t.

(** [text.strip().startswith(p)]. *)
Definition text_startswith (p : string) (t : text) : bool :=
  match t with
  | Lit s :: _ => String.prefix p (lstrip s)
  | _ => false
  end.

(** Colours chosen by [ColorConsoleStream.write] (lines 64-71). *)
Inductive colour : Type := Red | GoldOnGreen | Black.

Definition write_colour (t : text) : colour :=
  if text_contains "[ERROR]" t || text_startswith "Traceback" t then Red
  else if text_contains "[WARN]" t then GoldOnGreen
  else Black.

(** One [ax.quiver] artist: origins, directions and colour. *)
Record quiver : Type := mkQuiver {
  q_origin : list (vec3 float);
  q_arrow : list (vec3 float);
  q_colour : string;
  q_label : string
}.

(** Calls of the three numerical functions, with arguments and result;
    kept beside the state to speak about which of them a run made. *)
Inductive call : Type :=
| CallDetect (data : matrix) (threshold : float) (mask : list bool)
| CallAverage (data : matrix) (weights : option (list float))
              (res : outcome (vec3 float))
| CallCorrect (main_vec : matrix) (aux_mean : vec3 float) (factor : float)
              (res : matrix).

Record App : Type := mkApp {
  table_main : table;
  table_aux : table;
  label : text;
  console : list (colour * text);
  console_shown : bool;
  figure : list quiver;
  canvas : list quiver;
  dialogs : list text;
  calls : list call
}.

(** The window as [__init__] leaves it: one empty row in each table. *)
Definition empty_row : rec7 (option string) :=
  mk7 None None None None None None None.

Definition init_app : App :=
  mkApp [empty_row] [empty_row]
        [Lit "数据格式：经度(°)、纬度(°)、垂向深度(m)、井口海拔(m)、X轴分量(nT)、Y轴分量(nT)、Z轴分量(nT)";
         Lit nl; Lit "可手动输入数据，或从Excel读取。"]
        [] false [] [] [] [].

(* ================================================================== *)
(** ** A state-and-exception monad for the handlers *)
(* ================================================================== *)

Definition M (A : Type) : Type := App -> outcome A * App.

Definition ret {A} (a : A) : M A := fun s => (Done a, s).

Definition bind {A B} (m : M A) (k : A -> M B) : M B :=
  fun s =>
    match m s with
    | (Done a, s') => k a s'
    | (Raise e, s') => (Raise e, s')
    end.

Definition raise {A} (e : exn) : M A := fun s => (Raise e, s).

Definition lift {A} (o : outcome A) : M A := fun s => (o, s).

Definition get : M App := fun s => (Done s, s).

Definition modify (f : App -> App) : M unit := fun s => (Done tt, f s).

(** [try: body except Exception as e: handler e]. *)
Definition try_except {A} (body : M A) (handler : exn -> M A) : M A :=
  fun s =>
    match body s with
    | (Raise e, s') => handler e s'
    | r => r
    end.

Declare Scope monad_scope.
Delimit Scope monad_scope with monad.
Notation "x <- m ;; k" := (bind m (fun x => k))
  (at level 61, m at next level, right associativity) : monad_scope.
Notation "m ;; k" := (bind m (fun _ => k))
  (at level 61, right associativity) : monad_scope.
Local Open Scope monad_scope.

Fixpoint for_each {A} (l : list A) (body : A -> M unit) : M unit :=
  match l with
  | [] => ret tt
  | a :: l' => body a ;; for_each l' body
  end.

(* ================================================================== *)
(** ** Widget operations *)
(* ================================================================== *)

Definition set_table_main (t : table) : M unit :=
  modify (fun s => mkApp t (table_aux s) (label s) (console s)
                         (console_shown s) (figure s) (canvas s)
                         (dialogs s) (calls s)).

Definition set_table_aux (t : table) : M unit :=
  modify (fun s => mkApp (table_main s) t (label s) (console s)
                         (console_shown s) (figure s) (canvas s)
                         (dialogs s) (calls s)).

(** [self.label.setText(t)]. *)
Definition label_setText (t : text) : M unit :=
  modify (fun s => mkApp (table_main s) (table_aux s) t (console s)
                         (console_shown s) (figure s) (canvas s)
                         (dialogs s) (calls s)).

(** [self.console_stream.write(t)]: the text is appended in the colour
    its tag selects. *)
Definition console_write (t : text) : M unit :=
  modify (fun s => mkApp (table_main s) (table_aux s) (label s)
                         (console s ++ [(write_colour t, t)])
                         (console_shown s) (figure s) (canvas s)
                         (dialogs s) (calls s)).

(** [self.show_console()] (lines 301-308). *)
Definition show_console : M unit :=
  modify (fun s =>
            if negb (console_shown s) then
              mkApp (table_main s) (table_aux s) (label s) (console s)
                    true (figure s) (canvas s) (dialogs s) (calls s)
            else s).

(** [QMessageBox.critical(self, "错误", t)]. *)
Definition message_critical (t : text) : M unit :=
  modify (fun s => mkApp (table_main s) (table_aux s) (label s) (console s)
                         (console_shown s) (figure s) (canvas s)
                         (dialogs s ++ [t]) (calls s)).

Definition set_figure (f : list quiver) : M unit :=
  modify (fun s => mkApp (table_main s) (table_aux s) (label s) (console s)
                         (console_shown s) f (canvas s)
                         (dialogs s) (calls s)).

(** [self.figure.clear()]. *)
Definition figure_clear : M unit := set_figure [].

(** [self.canvas.draw()] renders the figure's current artists. *)
Definition canvas_draw : M unit :=
  modify (fun s => mkApp (table_main s) (table_aux s) (label s) (console s)
                         (console_shown s) (figure s) (figure s)
                         (dialogs s) (calls s)).

Definition record_call (c : call) : M unit :=
  modify (fun s => mkApp (table_main s) (table_aux s) (label s) (console s)
                         (console_shown s) (figure s) (canvas s)
                         (dialogs s) (calls s ++ [c])).

(** [ax.quiver(geo[:,0], geo[:,1], geo[:,2], vec[:,0], vec[:,1], vec[:,2],
    color=..., label=...)]: the six arrays are broadcast together, which
    fails unless the two lengths agree or one of them is 1. *)
Definition ax_quiver (geo : list (vec4 float)) (vec : matrix)
    (colour_name label_name : string) : M unit :=
  if Nat.eqb (shape0 geo) (shape0 vec)
     || Nat.eqb (shape0 geo) 1 || Nat.eqb (shape0 vec) 1
  then
    s <- get ;;
    set_figure
      (figure s ++
       [mkQuiver (map (fun g => mk3 (g_lon g) (g_lat g) (g_depth g)) geo)
                 vec colour_name label_name])
  else
    raise (mkExn ValueError "shape mismatch: objects cannot be broadcast to a single shape").

(** [a[i]] on the first axis. *)
Definition get_row {A} (a : list A) (i : nat) : outcome A :=
  match nth_error a i with
  | Some r => Done r
  | None => Raise (mkExn IndexError "index is out of bounds for axis 0")
  end.

(** [a[mask]] with a boolean mask: the mask must have one entry per row. *)
Definition bool_index {A} (a : list A) (mask : list bool) : outcome (list A) :=
  if Nat.eqb (shape0 a) (shape0 mask) then
    Done (map fst (filter snd (combine a mask)))
  else
    Raise (mkExn IndexError
             "boolean index did not match indexed array along axis 0").

(** The three numerical functions as called from the handlers. *)
Definition call_detect (data : matrix) (threshold : float) : M (list bool) :=
  let mask := detect_outliers_zscore data threshold in
  record_call (CallDetect data threshold mask) ;;
  ret mask.

Definition call_average (data : matrix) (weights : option (list float))
  : M (vec3 float) :=
  let res := weighted_average data weights in
  record_call (CallAverage data weights res) ;;
  lift res.

Definition call_correct (main_vec : matrix) (aux_mean : vec3 float)
    (factor : float) : M matrix :=
  let res := correct_main_data main_vec aux_mean factor in
  record_call (CallCorrect main_vec aux_mean factor res) ;;
  ret res.

(** [self.add_main_row()] and [self.add_aux_row()] (lines 182-186). *)
Definition add_main_row : M unit :=
  s <- get ;; set_table_main (table_main s ++ [empty_row])%list.

Definition add_aux_row : M unit :=
  s <- get ;; set_table_aux (table_aux s ++ [empty_row])%list.

(* ================================================================== *)
(** ** Loading a workbook (source lines 188-215) *)
(* ================================================================== *)

(** The sheets of a workbook in order, as [pd.read_excel] parses them. *)
Definition workbook : Type := list dataframe.

Definition exn_name (k : exn_kind) : string :=
  match k with
  | ValueError => "ValueError"
  | IndexError => "IndexError"
  | KeyError => "KeyError"
  | ZeroDivisionError => "ZeroDivisionError"
  end.

(** [traceback.format_exc()]. *)
Definition format_exc (e : exn) : text :=
  [Lit "Traceback (most recent call last):"; Lit nl;
   Lit (exn_name (kind e)); Lit ": "; Lit (message e); Lit nl].

(** The schema check of lines 197-202 for one frame. *)
Definition check_columns (df : dataframe) (name : string) : M unit :=
  for_each FIELDS (fun col =>
    if negb (has_column col df) then
      show_console ;;
      console_write [Lit "[ERROR] "; Lit name; Lit "缺少列: "; Lit col; Lit nl] ;;
      raise (mkExn ValueError (name ++ "缺少列: " ++ col))
    else ret tt).

(** [load_excel]: [file_path] is what the file dialog returned and
    [xls] what opening and parsing that file gives. *)
Definition load_excel (file_path : string) (xls : outcome workbook) : M unit :=
  if String.eqb file_path "" then ret tt
  else
    try_except
      (xls <- lift xls ;;
       main_df <- lift (get_row xls 0) ;;
       aux_df <- (if Nat.ltb 1 (length xls) then lift (get_row xls 1)
                  else ret main_df) ;;
       for_each [(main_df, "主数据"); (aux_df, "辅助数据")]
                (fun p => check_columns (fst p) (snd p)) ;;
       main_df <- lift (select_fields main_df) ;;
       aux_df <- lift (select_fields aux_df) ;;
       set_table_main (dataframe_to_table main_df) ;;
       set_table_aux (dataframe_to_table aux_df) ;;
       label_setText [Lit "已加载Excel: "; Lit file_path; Lit nl;
                      Lit "主数据"; ShowNat (shape0 main_df);
                      Lit "行，辅助数据"; ShowNat (shape0 aux_df); Lit "行"] ;;
       show_console ;;
       console_write [Lit "[INFO] Excel加载成功："; Lit file_path; Lit nl])
      (fun e =>
         show_console ;;
         console_write [Lit "[ERROR] 读取Excel失败:"; Lit nl;
                        Lit (message e); Lit nl] ;;
         console_write (format_exc e) ;;
         message_critical [Lit "读取Excel失败:"; Lit nl; Lit (message e)]).

(* ================================================================== *)
(** ** The pipeline (source lines 33-48 and 217-293) *)
(* ================================================================== *)

Section Pipeline.

(** [pd.to_numeric(..., errors='coerce')] on one cell text: the number
    it denotes, NaN when it denotes none. *)
Variable to_numeric : string -> float.

(** [table_to_dataframe(table)]: the text of every item ([""] where
    there is none), each of the seven columns coerced to numbers. *)
Definition table_to_dataframe (t : table) : frame :=
  map (map7 (fun item =>
               let value := match item with Some x => x | None => "" end in
               to_numeric value)) t.

(** Lines 243-246: one valid auxiliary row. *)
Definition aux_singleton (aux_vec : matrix) (aux_geo : list (vec4 float))
  : M (matrix * list (vec4 float) * vec3 float) :=
  let aux_valid := aux_vec in
  let aux_geo_valid := aux_geo in
  aux_mean <- lift (get_row aux_vec 0) ;;
  ret (aux_valid, aux_geo_valid, aux_mean).

(** Lines 247-254: two or more valid auxiliary rows. *)
Definition aux_plural (aux_vec : matrix) (aux_geo : list (vec4 float))
  : M (matrix * list (vec4 float) * vec3 float) :=
  outlier_mask <- call_detect aux_vec default_threshold ;;
  aux_valid <- lift (bool_index aux_vec (map negb outlier_mask)) ;;
  aux_geo_valid <- lift (bool_index aux_geo (map negb outlier_mask)) ;;
  let '(aux_valid, aux_geo_valid) :=
    if Nat.eqb (shape0 aux_valid) 0 then (aux_vec, aux_geo)
    else (aux_valid, aux_geo_valid) in
  aux_mean <- call_average aux_valid None ;;
  ret (aux_valid, aux_geo_valid, aux_mean).

(** Lines 256-293: report, correct, draw. *)
Definition correct_and_draw (main_vec : matrix) (main_geo : list (vec4 float))
    (aux_valid : matrix) (aux_geo_valid : list (vec4 float))
    (aux_mean : vec3 float) : M unit :=
  console_write [Lit "[INFO] 有效辅助数据点数："; ShowNat (shape0 aux_valid); Lit nl] ;;
  console_write [Lit "[INFO] 辅助数据均值："; ShowVec aux_mean; Lit nl] ;;
  main_corrected <- call_correct main_vec aux_mean default_factor ;;
  (if Nat.ltb 0 (length main_corrected) then
     first_row <- lift (get_row main_corrected 0) ;;
     console_write [Lit "[INFO] 修正后主数据首行："; ShowVec first_row; Lit nl]
   else
     console_write [Lit "[WARN] 修正后主数据为空。"; Lit nl]) ;;
  figure_clear ;;
  (if Nat.ltb 0 (shape0 aux_geo_valid) then
     ax_quiver aux_geo_valid aux_valid "green" "辅助数据"
   else ret tt) ;;
  (if Nat.ltb 0 (shape0 main_geo) then
     ax_quiver main_geo main_vec "blue" "主数据"
   else ret tt) ;;
  (if Nat.ltb 0 (shape0 main_geo) then
     ax_quiver main_geo main_corrected "red" "修正后主数据"
   else ret tt) ;;
  canvas_draw ;;
  label_setText [Lit "修正与可视化完成。"] ;;
  console_write [Lit "[INFO] 可视化已更新。"; Lit nl].

(** [process_and_plot].  The [astype(float)] conversions of lines
    228-231 act on columns that [table_to_dataframe] already made
    [float64], so the [except] branch of lines 232-236 is never taken. *)
Definition process_and_plot : M unit :=
  s <- get ;;
  let main_df := table_to_dataframe (table_main s) in
  let aux_df := table_to_dataframe (table_aux s) in
  show_console ;;
  if Nat.eqb (shape0 (dropna3 (vector_columns main_df))) 0
     || Nat.eqb (shape0 (dropna3 (vector_columns aux_df))) 0
  then
    label_setText [Lit "请填写主数据和辅助数据的所有磁场分量"] ;;
    console_write [Lit "[WARN] 数据不完整，无法计算。"; Lit nl]
  else
    let main_vec := dropna3 (vector_columns main_df) in
    let aux_vec := dropna3 (vector_columns aux_df) in
    let main_geo := dropna4 (geo_columns main_df) in
    let aux_geo := dropna4 (geo_columns aux_df) in
    if Nat.eqb (shape0 aux_vec) 0 then
      label_setText [Lit "辅助数据为空"] ;;
      console_write [Lit "[WARN] 辅助数据为空。"; Lit nl]
    else
      r <- (if Nat.eqb (shape0 aux_vec) 1 then aux_singleton aux_vec aux_geo
            else aux_plural aux_vec aux_geo) ;;
      let '(aux_valid, aux_geo_valid, aux_mean) := r in
      correct_and_draw main_vec main_geo aux_valid aux_geo_valid aux_mean.

End Pipeline.

(* ================================================================== *)
(** ** The specification's vocabulary *)
(* ================================================================== *)

(** Definitions that follow the words of the specification, over exact
    reals. *)
Module Spec.

Local Open Scope R_scope.

Definition Rsum (l : list R) : R := fold_right Rplus 0 l.

(** Arithmetic mean of a column. *)
Definition mean (col : list R) : R := Rsum col / INR (length col).

(** Population standard deviation of a column. *)
Definition pstd (col : list R) : R :=
  sqrt (Rsum (map (fun x => (x - mean col) * (x - mean col)) col)
        / INR (length col)).

(** The z-score [|x - mean| / std] of an entry [x] of a column exceeds
    [t].  A column without spread has [std = 0] and every deviation 0:
    it has no z-score that exceeds anything. *)
Definition exceeds (col : list R) (x t : R) : Prop :=
  pstd col <> 0 /\ Rabs (x - mean col) / pstd col > t.

(** A row is an outlier when any of its three z-scores exceeds the
    threshold. *)
Definition is_outlier (data : list (vec3 R)) (threshold : R) (row : vec3 R) : Prop :=
  exceeds (map vx data) (vx row) threshold
  \/ exceeds (map vy data) (vy row) threshold
  \/ exceeds (map vz data) (vz row) threshold.


(** [main_row + factor * (reference - main_row)]. *)
Definition blend (factor : R) (reference main_row : vec3 R) : vec3 R :=
  mk3 (vx main_row + factor * (vx reference - vx main_row))
      (vy main_row + factor * (vy reference - vy main_row))
      (vz main_row + factor * (vz reference - vz main_row)).

Definition complete_vector (r : rec7 float) : bool :=
  negb (PrimFloat.is_nan (f_x r) || PrimFloat.is_nan (f_y r)
        || PrimFloat.is_nan (f_z r)).

Definition complete_geo (r : rec7 float) : bool :=
  negb (PrimFloat.is_nan (f_lon r) || PrimFloat.is_nan (f_lat r)
        || PrimFloat.is_nan (f_depth r) || PrimFloat.is_nan (f_elev r)).

(** A valid row in the words of the data model: a complete geo-position
    and a complete magnetic vector. *)
Definition valid_row (r : rec7 float) : bool :=
  complete_geo r && complete_vector r.

End Spec.

(* ================================================================== *)
(** ** What a binary64 value stands for *)
(* ================================================================== *)

(** Every finite binary64 number is an integer multiple of [2^-1074]:
    its value is given exactly by that integer.  NaN has no value. *)
Inductive xint : Type :=
| MinusInf
| Units (z : Z)
| PlusInf.

Definition sf_value (x : spec_float) : option xint :=
  match x with
  | S754_nan => None
  | S754_infinity s => Some (if s then MinusInf else PlusInf)
  | S754_zero _ => Some (Units 0)
  | S754_finite s m e =>
      Some (Units (if s then (- (Zpos m * 2 ^ (e + 1074)))%Z
                   else (Zpos m * 2 ^ (e + 1074))%Z))
  end.

Definition value (x : float) : option xint := sf_value (Prim2SF x).

(** The order of the extended number line. *)
Definition xint_lt (a b : xint) : Prop :=
  match a, b with
  | MinusInf, MinusInf => False
  | MinusInf, _ => True
  | Units x, Units y => (x < y)%Z
  | Units _, PlusInf => True
  | _, _ => False
  end.

(** [z] exceeds [t]: both are numbers and [z] is the greater. *)
Definition exceeds (z t : float) : Prop :=
  match value z, value t with
  | Some a, Some b => xint_lt b a
  | _, _ => False
  end.


(** The value with a negative zero read as zero. *)
Definition unsigned_zero (x : float) : float :=
  if PrimFloat.is_zero x then 0%float else x.

(** The same number: identical, or zeros of either sign. *)
Definition same_number (x y : float) : Prop :=
  x = y \/ (PrimFloat.is_zero x = true /\ PrimFloat.is_zero y = true).


(** The formulas of the specification evaluated in binary64, every
    operation rounded, sums taken in row order. *)
Module Binary64.

Local Open Scope float_scope.

Fixpoint sum_from (acc : float) (col : list float) : float :=
  match col with
  | [] => acc
  | x :: col' => sum_from (acc + x) col'
  end.

Definition total (col : list float) : float := sum_from 0 col.

Definition mean (col : list float) : float :=
  total col / Np.float_of_count (length col).

Definition pstd (col : list float) : float :=
  PrimFloat.sqrt
    (total (map (fun x => (x - mean col) * (x - mean col)) col)
     / Np.float_of_count (length col)).

(** [|x - mean| / std]. *)
Definition zscore (col : list float) (x : float) : float :=
  PrimFloat.abs (x - mean col) / pstd col.

(** A row is an outlier when one of its three z-scores exceeds the
    threshold. *)
Definition is_outlier (data : matrix) (threshold : float) (row : vec3 float) : Prop :=
  exceeds (zscore (map vx data) (vx row)) threshold
  \/ exceeds (zscore (map vy data) (vy row)) threshold
  \/ exceeds (zscore (map vz data) (vz row)) threshold.



(** [main_row + factor * (reference - main_row)]. *)
Definition blend (factor : float) (reference main_row : vec3 float) : vec3 float :=
  mk3 (vx main_row + factor * (vx reference - vx main_row))
      (vy main_row + factor * (vy reference - vy main_row))
      (vz main_row + factor * (vz reference - vz main_row)).

End Binary64.

(* ================================================================== *)
(** ** Vocabulary for the bit-level specification of binary64 *)
(* ================================================================== *)

(** Number of binary digits of a significand. *)
Definition dig (m : positive) : Z := Zpos (digits2_pos m).


(** A positive number or the positive infinity. *)
Definition sf_pos (x : spec_float) : bool :=
  match x with
  | S754_infinity false | S754_finite false _ _ => true
  | _ => false
  end.

Definition positive_float (x : float) : Prop := sf_pos (Prim2SF x) = true.

(** The positive integer [k], at most [2^53], as a binary64 number. *)
Definition is_count (k : Z) (x : spec_float) : Prop :=
  exists m e,
    x = S754_finite false m e
    /\ canonical_mantissa prec emax m e = true
    /\ (-52 <= e <= 1)%Z
    /\ (Zpos m * 2 ^ (e + 52) = k * 2 ^ 52)%Z.


(* ================================================================== *)
(** ** Sample inputs *)
(* ================================================================== *)

(** A reader of unsigned decimal integers: one function that agrees
    with [pd.to_numeric] on the empty text and on digit strings (of
    numbers that binary64 holds exactly). *)
Fixpoint parse_digits (s : string) (acc : nat) : option nat :=
  match s with
  | EmptyString => Some acc
  | String c s' =>
      let n := nat_of_ascii c in
      if Nat.leb 48 n && Nat.leb n 57
      then parse_digits s' (10 * acc + (n - 48))
      else None
  end.

Definition decimal_to_numeric (s : string) : float :=
  match s with
  | EmptyString => PrimFloat.nan
  | _ => match parse_digits s 0 with
         | Some n => Np.float_of_count n
         | None => PrimFloat.nan
         end
  end.

(** A table row from seven cell texts. *)
Definition row_of (a b c d x y z : string) : rec7 (option string) :=
  map7 (@Some string) (mk7 a b c d x y z).

Definition app_with (main aux : table) : App :=
  mkApp main aux (label init_app) [] false [] [] [] [].

(** The end-to-end example of the specification: one main row, two
    auxiliary rows. *)
Definition sample_main : table := [row_of "1" "1" "0" "0" "10" "0" "0"].

Definition sample_aux : table :=
  [row_of "1" "1" "0" "0" "0" "0" "10"; row_of "1" "1" "0" "0" "0" "0" "12"].

Definition sample_aux_one : table := [row_of "1" "1" "0" "0" "0" "0" "10"].

(** The same tables with one longitude cell left blank. *)
Definition sample_aux_blank_lon : table :=
  [row_of "1" "1" "0" "0" "0" "0" "10"; row_of "" "1" "0" "0" "0" "0" "12"].

Definition sample_main_blank_lon : table := [row_of "" "1" "0" "0" "10" "0" "0"].

(** A sheet that lacks the Z column. *)
Definition sample_sheet_no_z : dataframe :=
  mkDf [ "经度(°)"; "纬度(°)"; "垂向深度(m)"; "井口海拔(m)";
         "X轴分量(nT)"; "Y轴分量(nT)" ]
       [ ["1"; "1"; "0"; "0"; "10"; "0"] ].

(* ================================================================== *)
(** ** Vocabulary for statements about a run *)
(* ================================================================== *)

(** The state with further calls recorded. *)
Definition add_calls (s : App) (cs : list call) : App :=
  mkApp (table_main s) (table_aux s) (label s) (console s)
        (console_shown s) (figure s) (canvas s) (dialogs s)
        (calls s ++ cs).

Definition index_error : exn :=
  mkExn IndexError "boolean index did not match indexed array along axis 0".

(** [a[~mask]] when the mask fits. *)
Definition unflagged {A} (a : list A) (mask : list bool) : list A :=
  map fst (filter snd (combine a (map negb mask))).

(** The valid vectors and positions [process_and_plot] extracts. *)
Definition valid_vectors (to_numeric : string -> float) (t : table) : matrix :=
  dropna3 (vector_columns (table_to_dataframe to_numeric t)).

Definition valid_positions (to_numeric : string -> float) (t : table)
  : list (vec4 float) :=
  dropna4 (geo_columns (table_to_dataframe to_numeric t)).

(** The calls of the numerical functions one run makes, read off the
    branches of [process_and_plot]. *)
Definition pipeline_calls (main_vec aux_vec : matrix) (aux_geo : list (vec4 float))
  : list call :=
  match main_vec, aux_vec with
  | [], _ | _, [] => []
  | _, [r] =>
      [CallCorrect main_vec r default_factor
         (correct_main_data main_vec r default_factor)]
  | _, _ =>
      let mask := detect_outliers_zscore aux_vec default_threshold in
      CallDetect aux_vec default_threshold mask ::
      if Nat.eqb (length aux_geo) (length aux_vec) then
        let sel := if Nat.eqb (shape0 (unflagged aux_vec mask)) 0
                   then aux_vec else unflagged aux_vec mask in
        CallAverage sel None (weighted_average sel None) ::
        match weighted_average sel None with
        | Done m => [CallCorrect main_vec m default_factor
                       (correct_main_data main_vec m default_factor)]
        | Raise _ => []
        end
      else []
  end.

(** The first required column a sheet lacks, if any. *)
Definition first_missing (df : dataframe) : option string :=
  find (fun col => negb (has_column col df)) FIELDS.

(** The origins [ax.quiver] is given: longitude, latitude and depth of
    every position. *)
Definition origins (geo : list (vec4 float)) : list (vec3 float) :=
  map (fun g => mk3 (g_lon g) (g_lat g) (g_depth g)) geo.





(* ================================================================== *)
(** ** Binary64 arithmetic: rounding, signs and exact cases *)
(* ================================================================== *)

(** The lemmas of this part are about the bit-level specification of
    the binary64 operations ([SpecFloat]), to which the primitive
    operations are tied operation by operation. *)

Unset Implicit Arguments.
Local Open Scope Z_scope.

Lemma digits2_size (m : positive) : digits2_pos m = Pos.size m.
Proof. induction m as [m IH|m IH|]; simpl; congruence. Qed.

Lemma dig_pos (m : positive) : 0 < dig m.
Proof. unfold dig; lia. Qed.

Lemma dig_bounds (m : positive) : 2 ^ (dig m - 1) <= Zpos m < 2 ^ dig m.
Proof.
  unfold dig; rewrite digits2_size.
  pose proof (Pos.size_gt m) as Hgt.
  pose proof (Pos.size_le m) as Hle.
  apply Pos2Z.pos_lt_pos in Hgt; apply Pos2Z.pos_le_pos in Hle.
  rewrite Pos2Z.inj_pow in Hgt, Hle.
  change (Zpos m~0) with (2 * Zpos m) in Hle.
  replace (Zpos (Pos.size m)) with (Z.succ (Zpos (Pos.size m) - 1)) in Hle by lia.
  rewrite Z.pow_succ_r in Hle by lia.
  split; [lia | exact Hgt].
Qed.

Lemma dig_unique (m : positive) (d : Z) :
  2 ^ (d - 1) <= Zpos m < 2 ^ d -> dig m = d.
Proof.
  intros [Hlo Hhi]; pose proof (dig_bounds m) as [Blo Bhi].
  pose proof (dig_pos m) as Hd.
  destruct (Z.lt_trichotomy (dig m) d) as [H|[H|H]]; [exfalso|exact H|exfalso].
  - assert (2 ^ dig m <= 2 ^ (d - 1)) by (apply Z.pow_le_mono_r; lia). lia.
  - assert (0 <= d \/ d < 0) as [Hd0|Hd0] by lia.
    + assert (2 ^ d <= 2 ^ (dig m - 1)) by (apply Z.pow_le_mono_r; lia). lia.
    + rewrite (Z.pow_neg_r 2 d) in Hhi by lia. lia.
Qed.

Lemma dig_shift (m m' : positive) (k : Z) :
  0 <= k -> Zpos m' = Zpos m * 2 ^ k -> dig m' = dig m + k.
Proof.
  intros Hk E; apply dig_unique.
  pose proof (dig_bounds m) as [Blo Bhi]; pose proof (dig_pos m) as Hd.
  rewrite E.
  replace (dig m + k - 1) with ((dig m - 1) + k) by lia.
  rewrite !Z.pow_add_r by lia.
  assert (0 < 2 ^ k) by (apply Z.pow_pos_nonneg; lia).
  split; [apply Z.mul_le_mono_nonneg_r | apply Z.mul_lt_mono_pos_r]; lia.
Qed.

Lemma iter_xO (m n : positive) :
  Zpos (Pos.iter xO m n) = Zpos m * 2 ^ Zpos n.
Proof.
  induction n as [|n IH] using Pos.peano_ind.
  - simpl; lia.
  - rewrite Pos.iter_succ, Pos2Z.inj_succ, Z.pow_succ_r by lia.
    change (Zpos (Pos.iter xO m n)~0) with (2 * Zpos (Pos.iter xO m n)); lia.
Qed.

Lemma iter_pos_iter {A} (f : A -> A) (n : positive) (x : A) :
  SpecFloat.iter_pos f n x = Pos.iter f x n.
Proof.
  revert x; induction n as [n IH|n IH|]; intros x; simpl.
  - rewrite !IH, <- !Pos.iter_swap; reflexivity.
  - rewrite !IH; reflexivity.
  - reflexivity.
Qed.

Lemma shr_1_m (r : shr_record) :
  0 <= shr_m r -> shr_m (shr_1 r) = shr_m r / 2 /\ 0 <= shr_m (shr_1 r).
Proof.
  destruct r as [m b s]; cbn [shr_m]; intros Hm.
  destruct m as [|q|q]; [| |lia].
  - cbn; split; [reflexivity | lia].
  - destruct q as [p|p|]; cbn [shr_1 shr_m].
    + split; [|lia]. change (Zpos p~1) with (1 + 2 * Zpos p).
      rewrite Z.add_comm, Z.mul_comm, Z.div_add_l by lia.
      change (1 / 2) with 0; lia.
    + split; [|lia]. change (Zpos p~0) with (2 * Zpos p).
      rewrite Z.mul_comm, Z.div_mul by lia; reflexivity.
    + split; [reflexivity | lia].
Qed.

Lemma shr_iter_m (n : positive) (r : shr_record) :
  0 <= shr_m r ->
  shr_m (Pos.iter shr_1 r n) = shr_m r / 2 ^ Zpos n
  /\ 0 <= shr_m (Pos.iter shr_1 r n).
Proof.
  intros Hr; induction n as [|n [IH1 IH2]] using Pos.peano_ind.
  - simpl; change (2 ^ 1) with 2; apply shr_1_m; exact Hr.
  - rewrite Pos.iter_succ.
    destruct (shr_1_m _ IH2) as [H1 H2]; split; [|exact H2].
    rewrite H1, IH1, Pos2Z.inj_succ, Z.pow_succ_r, Z.div_div by lia.
    f_equal; lia.
Qed.

Lemma shr_iter_exact (n m M : positive) :
  Zpos M = Zpos m * 2 ^ Zpos n ->
  Pos.iter shr_1 (Build_shr_record (Zpos M) false false) n
  = Build_shr_record (Zpos m) false false.
Proof.
  intros E; rewrite <- iter_xO in E; injection E as ->.
  induction n as [|n IH] using Pos.peano_ind.
  - reflexivity.
  - rewrite Pos.iter_succ_r, Pos.iter_succ; simpl; exact IH.
Qed.

Ltac fconst := unfold fexp, SpecFloat.emin, prec, emax in *.

(** Valid finite values. *)
Lemma canonical_fexp (m : positive) (e : Z) :
  canonical_mantissa prec emax m e = true -> fexp prec emax (dig m + e) = e.
Proof. unfold canonical_mantissa; intros H; apply Z.eqb_eq in H; exact H. Qed.

Lemma canonical_range (m : positive) (e : Z) :
  canonical_mantissa prec emax m e = true ->
  -1074 <= e /\ dig m <= 53 /\ (dig m = 53 \/ e = -1074).
Proof.
  intros H; apply canonical_fexp in H; fconst.
  pose proof (dig_pos m); lia.
Qed.

Lemma binary_round_aux_exact (s : bool) (M m : positive) (ez e : Z) :
  canonical_mantissa prec emax m e = true ->
  e <= 971 ->
  ez <= e ->
  Zpos M = Zpos m * 2 ^ (e - ez) ->
  binary_round_aux prec emax s (Zpos M) ez loc_Exact = S754_finite s m e.
Proof.
  intros Hc He Hz E.
  pose proof (canonical_fexp _ _ Hc) as Hf.
  assert (Hd : dig M + ez = dig m + e)
    by (rewrite (dig_shift m M (e - ez)) by (lia || exact E); lia).
  unfold binary_round_aux, shr_fexp.
  change (Zdigits2 (Zpos M)) with (dig M).
  rewrite Hd, Hf.
  assert (Hstep : shr (shr_record_of_loc (Zpos M) loc_Exact) ez (e - ez)
                  = (Build_shr_record (Zpos m) false false, e)).
  { unfold shr; destruct (e - ez) as [|p|p] eqn:Hn; try lia.
    - simpl in E. replace ez with e by lia.
      f_equal. simpl. f_equal. lia.
    - rewrite iter_pos_iter; simpl shr_record_of_loc.
      rewrite (shr_iter_exact p m M E); f_equal; lia. }
  rewrite Hstep; cbn [shr_m loc_of_shr_record round_nearest_even].
  change (Zdigits2 (Zpos m)) with (dig m); rewrite Hf, Z.sub_diag.
  cbn [shr shr_record_of_loc shr_m].
  replace (e <=? emax - prec) with true
    by (symmetry; apply Z.leb_le; unfold emax, prec; lia).
  reflexivity.
Qed.

Lemma shr_record_of_loc_m (m : Z) (l : location) :
  shr_m (shr_record_of_loc m l) = m.
Proof. destruct l as [|[]]; reflexivity. Qed.

Lemma shr_fexp_pos (m e : Z) (l : location) :
  0 < m -> -1074 <= e ->
  0 < shr_m (fst (shr_fexp prec emax m e l))
  /\ -1074 <= snd (shr_fexp prec emax m e l).
Proof.
  intros Hm He.
  destruct m as [|M|M]; try lia.
  unfold shr_fexp; change (Zdigits2 (Zpos M)) with (dig M).
  pose proof (dig_bounds M) as [Blo Bhi]; pose proof (dig_pos M) as Hd.
  unfold shr.
  destruct (fexp prec emax (dig M + e) - e) as [|p|p] eqn:Hn;
    cbn [fst snd]; rewrite ?shr_record_of_loc_m; try lia.
  rewrite iter_pos_iter.
  assert (H0 : 0 <= shr_m (shr_record_of_loc (Zpos M) l))
    by (rewrite shr_record_of_loc_m; lia).
  destruct (shr_iter_m p _ H0) as [H1 _].
  rewrite H1, shr_record_of_loc_m.
  assert (Hp : Zpos p <= dig M - 1) by (fconst; lia).
  split; [|lia].
  apply Z.div_str_pos; split; [apply Z.pow_pos_nonneg; lia|].
  apply Z.le_trans with (2 ^ (dig M - 1)); [apply Z.pow_le_mono_r; lia | exact Blo].
Qed.

Lemma round_nearest_even_pos (m : Z) (l : location) :
  0 < m -> 0 < round_nearest_even m l.
Proof.
  intros Hm; destruct l as [|[]]; cbn; try lia.
  destruct (Z.even m); lia.
Qed.

(** Rounding a positive significand at an exponent no smaller than the
    least one never gives zero: the result is a number of the given
    sign or the infinity of that sign. *)
Lemma binary_round_aux_pos (s : bool) (m e : Z) (l : location) :
  0 < m -> -1074 <= e ->
  binary_round_aux prec emax s m e l = S754_infinity s
  \/ exists m' e', binary_round_aux prec emax s m e l = S754_finite s m' e'.
Proof.
  intros Hm He; unfold binary_round_aux.
  destruct (shr_fexp_pos m e l Hm He) as [H1 H2].
  destruct (shr_fexp prec emax m e l) as [r1 e1]; cbn [fst snd] in H1, H2.
  pose proof (round_nearest_even_pos (shr_m r1) (loc_of_shr_record r1) H1) as H3.
  destruct (shr_fexp_pos _ e1 loc_Exact H3 H2) as [H4 H5].
  destruct (shr_fexp prec emax _ e1 loc_Exact) as [r2 e2]; cbn [fst snd] in H4, H5.
  destruct (shr_m r2) as [|q|q]; try lia.
  destruct (e2 <=? emax - prec); [right; eauto | left; reflexivity].
Qed.



Lemma shl_align_spec (m : positive) (e e' : Z) :
  (e' < e /\ exists m', shl_align m e e' = (m', e')
                        /\ Zpos m' = Zpos m * 2 ^ (e - e'))
  \/ (e <= e' /\ shl_align m e e' = (m, e)).
Proof.
  unfold shl_align.
  destruct (e' - e) as [|p|p] eqn:Hd.
  - right; split; [lia | reflexivity].
  - right; split; [lia | reflexivity].
  - left; split; [lia|].
    eexists; split; [reflexivity|].
    rewrite iter_xO; f_equal; f_equal; lia.
Qed.

Lemma valid_finite (s : bool) (m : positive) (e : Z) :
  valid_binary (S754_finite s m e) = true ->
  canonical_mantissa prec emax m e = true /\ e <= 971.
Proof.
  unfold SpecFloat.valid_binary, bounded; intros H.
  apply andb_true_iff in H; destruct H as [H1 H2].
  apply Z.leb_le in H2; unfold emax, prec in H2; split; [exact H1 | lia].
Qed.

Lemma binary_round_pos (s : bool) (M : positive) (e : Z) :
  -1074 <= e ->
  binary_round prec emax s M e = S754_infinity s
  \/ exists m' e', binary_round prec emax s M e = S754_finite s m' e'.
Proof.
  intros He; unfold binary_round.
  destruct (shl_align_spec M e (fexp prec emax (Zpos (digits2_pos M) + e)))
    as [[Hlt (m' & -> & _)] | [Hle ->]].
  - apply binary_round_aux_pos; [lia | fconst; lia].
  - apply binary_round_aux_pos; lia.
Qed.

(** Adding two positive values gives a positive value. *)
Lemma SFadd_pos (x y : spec_float) :
  valid_binary x = true -> valid_binary y = true ->
  sf_pos x = true -> sf_pos y = true ->
  sf_pos (SF64add x y) = true.
Proof.
  intros Vx Vy Px Py.
  destruct x as [sx|[|]| |[|] mx ex]; try discriminate;
    destruct y as [sy|[|]| |[|] my ey]; try discriminate; try reflexivity.
  apply valid_finite in Vx, Vy.
  destruct Vx as [Cx _], Vy as [Cy _].
  apply canonical_range in Cx, Cy.
  unfold SF64add, SFadd; cbn [cond_Zopp].
  change (Zpos ?a + Zpos ?b) with (Zpos (a + b)); cbn [binary_normalize].
  destruct (binary_round_pos false
              (fst (shl_align mx ex (Z.min ex ey)) + fst (shl_align my ey (Z.min ex ey)))
              (Z.min ex ey)) as [-> | (m' & e' & ->)]; [lia | reflexivity | reflexivity].
Qed.

Lemma binary_round_exact (s : bool) (M m : positive) (ez e : Z) :
  canonical_mantissa prec emax m e = true ->
  e <= 971 ->
  ez <= e ->
  Zpos M = Zpos m * 2 ^ (e - ez) ->
  binary_round prec emax s M ez = S754_finite s m e.
Proof.
  intros Hc He Hz E; unfold binary_round.
  assert (Hd : Zpos (digits2_pos M) + ez = dig m + e).
  { change (Zpos (digits2_pos M)) with (dig M).
    rewrite (dig_shift m M (e - ez)) by (lia || exact E); lia. }
  rewrite Hd, (canonical_fexp _ _ Hc).
  destruct (shl_align_spec M ez e) as [[Hlt _] | [_ ->]]; [lia|].
  apply binary_round_aux_exact; assumption.
Qed.

Lemma SF_one : Prim2SF 1 = S754_finite false 4503599627370496 (-52).
Proof. reflexivity. Qed.

Lemma SF_zero : Prim2SF 0 = S754_zero false.
Proof. reflexivity. Qed.

Lemma is_count_one : is_count 1 (Prim2SF 1).
Proof.
  rewrite SF_one; exists 4503599627370496%positive, (-52).
  repeat split; lia.
Qed.

Lemma count_canonical (k : Z) :
  1 <= k <= 2 ^ 53 ->
  exists m e,
    canonical_mantissa prec emax m e = true
    /\ -52 <= e <= 1
    /\ Zpos m * 2 ^ (e + 52) = k * 2 ^ 52.
Proof.
  intros [Hlo Hhi].
  destruct (Z.eq_dec k (2 ^ 53)) as [->|Hne].
  - exists 4503599627370496%positive, 1; repeat split; lia.
  - destruct k as [|K|K]; try lia.
    pose proof (dig_bounds K) as [Blo Bhi]; pose proof (dig_pos K) as Hd.
    assert (Hd53 : dig K <= 53).
    { destruct (Z_le_gt_dec (dig K) 53) as [H|H]; [exact H|exfalso].
      assert (2 ^ 53 <= 2 ^ (dig K - 1)) by (apply Z.pow_le_mono_r; lia). lia. }
    assert (Hp : 0 < 2 ^ (53 - dig K)) by (apply Z.pow_pos_nonneg; lia).
    exists (Z.to_pos (Zpos K * 2 ^ (53 - dig K))), (dig K - 53).
    assert (Em : Zpos (Z.to_pos (Zpos K * 2 ^ (53 - dig K)))
                 = Zpos K * 2 ^ (53 - dig K)) by (apply Z2Pos.id; lia).
    split; [|split; [lia|]].
    + unfold canonical_mantissa; apply Z.eqb_eq.
      change (Zpos (digits2_pos ?x)) with (dig x).
      rewrite (dig_shift K _ (53 - dig K)) by (lia || exact Em).
      fconst; lia.
    + rewrite Em, <- Z.mul_assoc, <- Z.pow_add_r by lia.
      f_equal; f_equal; lia.
Qed.

Lemma is_count_succ (k : Z) (x : spec_float) :
  1 <= k < 2 ^ 53 -> is_count k x -> is_count (k + 1) (SF64add x (Prim2SF 1)).
Proof.
  intros Hk (m & e & -> & Hc & He & Hv).
  destruct (count_canonical (k + 1)) as (m' & e' & Hc' & He' & Hv'); [lia|].
  exists m', e'; split; [|repeat split; (assumption || lia)].
  rewrite SF_one; unfold SF64add, SFadd.
  replace (Z.min e (-52)) with (-52) by lia.
  assert (Ha : Zpos (fst (shl_align m e (-52))) = Zpos m * 2 ^ (e + 52)).
  { destruct (shl_align_spec m e (-52)) as [[_ (m2 & -> & E)] | [Hle ->]]; cbn [fst].
    - rewrite E; f_equal; f_equal; lia.
    - replace e with (-52) by lia; simpl; lia. }
  change (shl_align 4503599627370496 (-52) (-52))
    with (4503599627370496%positive, -52).
  cbn [fst cond_Zopp].
  change (Zpos ?a + Zpos ?b) with (Zpos (a + b)); cbn [binary_normalize].
  apply binary_round_exact; [assumption | lia | lia |].
  rewrite Pos2Z.inj_add, Ha, Hv.
  replace (e' - -52) with (e' + 52) by lia; rewrite Hv'.
  change (Zpos 4503599627370496) with (2 ^ 52); lia.
Qed.

Lemma is_count_top (x : spec_float) :
  is_count (2 ^ 53) x -> x = S754_finite false 4503599627370496 1.
Proof.
  intros (m & e & -> & Hc & He & Hv).
  pose proof (canonical_range _ _ Hc) as (_ & _ & Hd).
  destruct Hd as [Hd|Hd]; [|lia].
  assert (Hpos : 0 < 2 ^ 53 * 2 ^ 52) by lia.
  assert (Em : Zpos (Z.to_pos (2 ^ 53 * 2 ^ 52)) = Zpos m * 2 ^ (e + 52))
    by (rewrite Z2Pos.id by exact Hpos; symmetry; exact Hv).
  pose proof (dig_shift m _ (e + 52) ltac:(lia) Em) as Hs.
  change (dig (Z.to_pos (2 ^ 53 * 2 ^ 52))) with 106 in Hs.
  assert (e = 1) by lia; subst e.
  f_equal. change (2 ^ (1 + 52)) with (2 ^ 53) in Hv. lia.
Qed.

Lemma is_count_saturates (x : spec_float) :
  is_count (2 ^ 53) x -> is_count (2 ^ 53) (SF64add x (Prim2SF 1)).
Proof.
  intros H; pose proof (is_count_top x H) as E; subst x.
  replace (SF64add (S754_finite false 4503599627370496 1) (Prim2SF 1))
    with (S754_finite false 4503599627370496 1) by (vm_compute; reflexivity).
  exact H.
Qed.

Lemma is_count_step (k : Z) (x : spec_float) :
  1 <= k <= 2 ^ 53 -> is_count k x ->
  exists k', 1 <= k' <= 2 ^ 53 /\ is_count k' (SF64add x (Prim2SF 1)).
Proof.
  intros Hk H.
  destruct (Z.eq_dec k (2 ^ 53)) as [->|Hne].
  - exists (2 ^ 53); split; [lia | apply is_count_saturates; exact H].
  - exists (k + 1); split; [lia | apply is_count_succ; [lia | exact H]].
Qed.

(** The reciprocal of a count is a positive number. *)
Lemma inv_count_pos (k : Z) (x : spec_float) :
  is_count k x -> sf_pos (SF64div (Prim2SF 1) x) = true.
Proof.
  intros (m & e & -> & Hc & He & Hv).
  pose proof (canonical_range _ _ Hc) as (_ & _ & Hd).
  destruct Hd as [Hd|Hd]; [|lia].
  rewrite SF_one; unfold SF64div, SFdiv, SFdiv_core_binary.
  change (Zdigits2 (Zpos 4503599627370496)) with 53.
  change (Zdigits2 (Zpos m)) with (dig m); rewrite Hd.
  replace (Z.min (fexp prec emax (53 + -52 - (53 + e))) (-52 - e))
    with (-105 - e) by (fconst; lia).
  replace (-52 - e - (-105 - e)) with 53 by lia.
  cbv iota.
  pose proof (dig_bounds m) as [Blo Bhi]; rewrite Hd in Blo, Bhi.
  set (a := Z.shiftl (Zpos 4503599627370496) 53).
  assert (Ha : a = 2 ^ 105) by reflexivity.
  pose proof (Z.div_eucl_eq a (Zpos m) ltac:(lia)) as Hq.
  pose proof (Z.mod_pos_bound a (Zpos m) ltac:(lia)) as Hr.
  unfold Z.modulo in Hr.
  destruct (Z.div_eucl a (Zpos m)) as [q r].
  assert (Hq0 : 0 < q) by (change (2 ^ 53) with 9007199254740992 in Bhi; 
                            change (2^105) with 40564819207303340847894502572032 in Ha; nia).
  cbn [xorb].
  destruct (binary_round_aux_pos false q (-105 - e) (new_location (Zpos m) r) Hq0)
    as [-> | (m' & e' & ->)]; [lia | reflexivity | reflexivity].
Qed.

Lemma SFmul_one_r (x : spec_float) :
  valid_binary x = true -> SF64mul x (Prim2SF 1) = x.
Proof.
  intros V; rewrite SF_one.
  destruct x as [s|s| |s m e]; try (destruct s; reflexivity); try reflexivity.
  apply valid_finite in V; destruct V as [Hc He].
  unfold SF64mul, SFmul; rewrite xorb_false_r.
  apply binary_round_aux_exact; [assumption | assumption | lia |].
  replace (e - (e + -52)) with 52 by lia.
  rewrite Pos2Z.inj_mul; reflexivity.
Qed.


Lemma SFdiv_one (x : spec_float) :
  valid_binary x = true -> SF64div x (Prim2SF 1) = x.
Proof.
  intros V; rewrite SF_one.
  destruct x as [s|s| |s m e]; cbn [SF64div SFdiv];
    try (destruct s; reflexivity); try reflexivity.
  apply valid_finite in V; destruct V as [Hc He].
  pose proof (canonical_fexp _ _ Hc) as Hf.
  pose proof (canonical_range _ _ Hc) as (Hlo & Hd & Hn).
  unfold SFdiv, SFdiv_core_binary.
  change (Zdigits2 (Zpos 4503599627370496)) with 53.
  change (Zdigits2 (Zpos m)) with (dig m).
  rewrite xorb_false_r.
  destruct (Z.eq_dec e (-1074)) as [E|E].
  - replace (Z.min (fexp prec emax (dig m + e - (53 + -52))) (e - -52))
      with e by (fconst; lia).
    replace (e - -52 - e) with 52 by lia; cbv iota.
    rewrite Z.shiftl_mul_pow2 by lia.
    pose proof (Z.div_eucl_eq (Zpos m * 2 ^ 52) (Zpos 4503599627370496) ltac:(lia)) as Hq.
    pose proof (Z.mod_pos_bound (Zpos m * 2 ^ 52) (Zpos 4503599627370496) ltac:(lia)) as Hr.
    unfold Z.modulo in Hr.
    destruct (Z.div_eucl (Zpos m * 2 ^ 52) (Zpos 4503599627370496)) as [q r].
    change (2 ^ 52) with 4503599627370496 in Hq.
    assert (r = 0) by lia; assert (q = Zpos m) by lia; subst q r.
    change (new_location (Zpos 4503599627370496) 0) with loc_Exact.
    apply binary_round_aux_exact; [assumption | assumption | lia |].
    rewrite Z.sub_diag; simpl; lia.
  - replace (Z.min (fexp prec emax (dig m + e - (53 + -52))) (e - -52))
      with (e - 1) by (fconst; lia).
    replace (e - -52 - (e - 1)) with 53 by lia; cbv iota.
    rewrite Z.shiftl_mul_pow2 by lia.
    pose proof (Z.div_eucl_eq (Zpos m * 2 ^ 53) (Zpos 4503599627370496) ltac:(lia)) as Hq.
    pose proof (Z.mod_pos_bound (Zpos m * 2 ^ 53) (Zpos 4503599627370496) ltac:(lia)) as Hr.
    unfold Z.modulo in Hr.
    destruct (Z.div_eucl (Zpos m * 2 ^ 53) (Zpos 4503599627370496)) as [q r].
    change (2 ^ 53) with 9007199254740992 in Hq.
    assert (r = 0) by lia; assert (q = Zpos (m~0)) by lia; subst q r.
    change (new_location (Zpos 4503599627370496) 0) with loc_Exact.
    apply binary_round_aux_exact; [assumption | assumption | lia |].
    replace (e - (e - 1)) with 1 by lia; lia.
Qed.

Lemma SFadd_zero_l (x : spec_float) :
  SF64add (S754_zero false) x
  = match x with S754_zero _ => S754_zero false | _ => x end.
Proof. destruct x as [[|]|s| |s m e]; reflexivity. Qed.

Lemma SFsub_diag (x : spec_float) :
  SF64sub x x = S754_zero false \/ SF64sub x x = S754_nan.
Proof.
  destruct x as [[|]|[|]| |s m e]; cbn; auto.
  left; unfold SF64sub, SFsub.
  rewrite Z.sub_diag; reflexivity.
Qed.











(** *** Comparison and the values compared *)





(* ================================================================== *)
(** ** Facts about [float64] arithmetic used by the pipeline *)
(* ================================================================== *)



Lemma mul_one_r (x : float) : (x * 1)%float = x.
Proof.
  apply Prim2SF_inj; rewrite FloatAxioms.mul_spec; apply SFmul_one_r, Prim2SF_valid.
Qed.


Lemma div_one (x : float) : (x / 1)%float = x.
Proof.
  apply Prim2SF_inj; rewrite FloatAxioms.div_spec; apply SFdiv_one, Prim2SF_valid.
Qed.

Lemma is_zero_spec (x : float) :
  PrimFloat.is_zero x = match Prim2SF x with S754_zero _ => true | _ => false end.
Proof.
  unfold PrimFloat.is_zero; rewrite FloatAxioms.eqb_spec.
  change (Prim2SF PrimFloat.zero) with (S754_zero false).
  destruct (Prim2SF x) as [[|]|[|]| |[|] m e]; reflexivity.
Qed.

(** Adding to the zero a sum starts from gives the number added, a
    negative zero becoming the positive one. *)
Lemma zero_add (x : float) : (0 + x)%float = unsigned_zero x.
Proof.
  apply Prim2SF_inj; rewrite FloatAxioms.add_spec, SF_zero, SFadd_zero_l.
  unfold unsigned_zero; rewrite is_zero_spec.
  destruct (Prim2SF x) eqn:E; rewrite ?E; reflexivity.
Qed.

Lemma unsigned_zero_same (x : float) : same_number (unsigned_zero x) x.
Proof.
  unfold same_number, unsigned_zero.
  destruct (PrimFloat.is_zero x) eqn:E; [right; split; reflexivity | left; reflexivity].
Qed.

Lemma unsigned_zero_idem (x : float) :
  unsigned_zero (unsigned_zero x) = unsigned_zero x.
Proof.
  unfold unsigned_zero; destruct (PrimFloat.is_zero x) eqn:E;
    [reflexivity | rewrite E; reflexivity].
Qed.

Lemma sub_diag (x : float) :
  (x - x)%float = 0%float \/ (x - x)%float = PrimFloat.nan.
Proof.
  destruct (SFsub_diag (Prim2SF x)) as [H|H]; [left | right];
    apply Prim2SF_inj; rewrite FloatAxioms.sub_spec, H; reflexivity.
Qed.

Lemma positive_add (x y : float) :
  positive_float x -> positive_float y -> positive_float (x + y).
Proof.
  unfold positive_float; intros Hx Hy; rewrite FloatAxioms.add_spec.
  apply SFadd_pos; try apply Prim2SF_valid; assumption.
Qed.

Lemma positive_unsigned_zero (x : float) :
  positive_float x -> unsigned_zero x = x.
Proof.
  unfold positive_float, unsigned_zero; intros H; rewrite is_zero_spec.
  destruct (Prim2SF x) as [[|]|[|]| |[|] m e]; try discriminate; reflexivity.
Qed.

Lemma positive_nonzero (x : float) :
  positive_float x -> PrimFloat.eqb x 0 = false.
Proof.
  unfold positive_float; rewrite FloatAxioms.eqb_spec, SF_zero.
  destruct (Prim2SF x) as [[|]|[|]| |[|] m e]; try discriminate; reflexivity.
Qed.

Lemma fold_add_positive (l : list float) (acc : float) :
  positive_float acc -> (forall x, In x l -> positive_float x) ->
  positive_float (fold_left PrimFloat.add l acc).
Proof.
  revert acc; induction l as [|x l IH]; intros acc Ha Hl; cbn [fold_left].
  - exact Ha.
  - apply IH.
    + apply positive_add; [exact Ha | apply Hl; left; reflexivity].
    + intros y Hy; apply Hl; right; exact Hy.
Qed.

(** The sum of one or more copies of a positive number is positive. *)
Lemma sum_repeat_positive (w : float) (n : nat) :
  positive_float w -> positive_float (Np.sum (repeat w (S n))).
Proof.
  intros Hw; unfold Np.sum; cbn [repeat fold_left].
  rewrite zero_add, (positive_unsigned_zero w Hw).
  apply fold_add_positive; [exact Hw|].
  intros x Hx; apply repeat_spec in Hx; subst x; exact Hw.
Qed.

Lemma fold_ones_count (n : nat) (acc : float) (k : Z) :
  1 <= k <= 2 ^ 53 -> is_count k (Prim2SF acc) ->
  exists k', 1 <= k' <= 2 ^ 53
             /\ is_count k' (Prim2SF (fold_left PrimFloat.add (repeat 1%float n) acc)).
Proof.
  revert acc k; induction n as [|n IH]; intros acc k Hk Hc; cbn [repeat fold_left].
  - exists k; split; assumption.
  - destruct (is_count_step k (Prim2SF acc) Hk Hc) as (k' & Hk' & Hc').
    rewrite <- FloatAxioms.add_spec in Hc'.
    exact (IH _ k' Hk' Hc').
Qed.

(** The sum of one or more ones is a count, never more than [2^53]. *)
Lemma sum_ones_count (n : nat) :
  exists k, 1 <= k <= 2 ^ 53 /\ is_count k (Prim2SF (Np.sum (Np.ones (S n)))).
Proof.
  unfold Np.sum, Np.ones; cbn [repeat fold_left].
  change (0 + 1)%float with 1%float.
  apply (fold_ones_count n 1%float 1); [lia | apply is_count_one].
Qed.

Lemma default_weight_positive (n : nat) :
  positive_float (1 / Np.sum (Np.ones (S n))).
Proof.
  destruct (sum_ones_count n) as (k & _ & Hc).
  unfold positive_float; rewrite FloatAxioms.div_spec.
  apply (inv_count_pos k); exact Hc.
Qed.







(* ================================================================== *)
(** ** The numerical core: verified properties *)
(* ================================================================== *)








(** *** Where the rounded z-score and the exact one part *)










(** *** The aggregator *)






Lemma normalize_ones (n : nat) :
  map (fun w => (w / Np.sum (Np.ones n))%float) (Np.ones n)
  = repeat (1 / Np.sum (Np.ones n))%float n.
Proof. unfold Np.ones; rewrite map_repeat; reflexivity. Qed.




(** *** The corrector *)





Set Implicit Arguments.

(* ================================================================== *)
(** ** The handlers: how a run unfolds *)
(* ================================================================== *)

Ltac munfold :=
  unfold bind, ret, raise, lift, get, modify, try_except,
    console_write, label_setText, show_console, message_critical,
    set_figure, figure_clear, canvas_draw, record_call, ax_quiver,
    call_detect, call_average, call_correct,
    set_table_main, set_table_aux in *.

Ltac mcase :=
  repeat match goal with
    | |- context [if ?c then _ else _] => destruct c; simpl
    | |- context [match ?x with Done _ => _ | Raise _ => _ end] =>
        destruct x; simpl
    end.

Lemma correct_and_draw_calls mv mg av agv am s :
  calls (snd (correct_and_draw mv mg av agv am s))
  = (calls s ++ [CallCorrect mv am default_factor
                  (correct_main_data mv am default_factor)])%list.
Proof.
  unfold correct_and_draw; munfold; simpl.
  mcase; reflexivity.
Qed.

Lemma detect_length (data : matrix) (t : float) :
  length (detect_outliers_zscore data t) = length data.
Proof. unfold detect_outliers_zscore; rewrite !length_map; reflexivity. Qed.

Lemma aux_plural_match (aux_vec : matrix) (aux_geo : list (vec4 float)) (s : App) :
  length aux_geo = length aux_vec ->
  let mask := detect_outliers_zscore aux_vec default_threshold in
  let empty := Nat.eqb (shape0 (unflagged aux_vec mask)) 0 in
  let sel := if empty then aux_vec else unflagged aux_vec mask in
  let gsel := if empty then aux_geo else unflagged aux_geo mask in
  aux_plural aux_vec aux_geo s
  = match weighted_average sel None with
    | Done m => (Done (sel, gsel, m),
                 add_calls s [CallDetect aux_vec default_threshold mask;
                              CallAverage sel None (Done m)])
    | Raise e => (Raise e,
                  add_calls s [CallDetect aux_vec default_threshold mask;
                               CallAverage sel None (Raise e)])
    end.
Proof.
  intros Hlen; cbv zeta.
  unfold aux_plural, bool_index, shape0; munfold; simpl.
  rewrite !length_map, detect_length, Hlen, Nat.eqb_refl; simpl.
  fold (unflagged aux_vec (detect_outliers_zscore aux_vec default_threshold)).
  fold (unflagged aux_geo (detect_outliers_zscore aux_vec default_threshold)).
  destruct (Nat.eqb (length (unflagged aux_vec
                       (detect_outliers_zscore aux_vec default_threshold))) 0);
    simpl;
    match goal with |- context [weighted_average ?d None] =>
      destruct (weighted_average d None) end;
    unfold add_calls; simpl; rewrite <- app_assoc; reflexivity.
Qed.

Lemma aux_plural_mismatch (aux_vec : matrix) (aux_geo : list (vec4 float)) (s : App) :
  length aux_geo <> length aux_vec ->
  aux_plural aux_vec aux_geo s
  = (Raise index_error,
     add_calls s [CallDetect aux_vec default_threshold
                    (detect_outliers_zscore aux_vec default_threshold)]).
Proof.
  intros Hlen.
  unfold aux_plural, bool_index, shape0; munfold; simpl.
  rewrite !length_map, detect_length, Nat.eqb_refl; simpl.
  apply Nat.eqb_neq in Hlen; rewrite Hlen; reflexivity.
Qed.

Lemma calls_show_console (s : App) : calls (snd (show_console s)) = calls s.
Proof. unfold show_console, modify; simpl; destruct (console_shown s); reflexivity. Qed.

Lemma process_and_plot_calls (to_numeric : string -> float) (s : App) :
  calls (snd (process_and_plot to_numeric s))
  = (calls s ++ pipeline_calls (valid_vectors to_numeric (table_main s))
                              (valid_vectors to_numeric (table_aux s))
                              (valid_positions to_numeric (table_aux s)))%list.
Proof.
  unfold process_and_plot, valid_vectors, valid_positions.
  unfold bind at 1, get at 1. unfold bind at 1.
  change (show_console s) with (Done tt, snd (show_console s)).
  cbv beta iota.
  pose proof (calls_show_console s) as Hc.
  set (s1 := snd (show_console s)) in *.
  set (main_vec := dropna3 (vector_columns (table_to_dataframe to_numeric (table_main s)))).
  set (aux_vec := dropna3 (vector_columns (table_to_dataframe to_numeric (table_aux s)))).
  set (aux_geo := dropna4 (geo_columns (table_to_dataframe to_numeric (table_aux s)))).
  set (main_geo := dropna4 (geo_columns (table_to_dataframe to_numeric (table_main s)))).
  clearbody s1 main_vec aux_vec aux_geo main_geo.
  rewrite <- Hc; clear Hc s.
  destruct main_vec as [|m0 main_vec'].
  { simpl; destruct aux_vec; simpl; rewrite app_nil_r; reflexivity. }
  set (main_vec := m0 :: main_vec') in *.
  destruct aux_vec as [|a0 [|a1 aux_vec']].
  - simpl; rewrite app_nil_r; reflexivity.
  - change (shape0 main_vec =? 0)%nat with false.
    cbn [shape0 length Nat.eqb orb].
    unfold bind at 1.
    change (aux_singleton [a0] aux_geo s1) with (Done ([a0], aux_geo, a0), s1).
    cbv beta iota. rewrite correct_and_draw_calls. reflexivity.
  - change (shape0 main_vec =? 0)%nat with false.
    cbn [shape0 length Nat.eqb orb].
    set (aux_vec := a0 :: a1 :: aux_vec') in *.
    unfold bind at 1.
    unfold pipeline_calls; fold aux_vec.
    destruct (Nat.eqb (length aux_geo) (length aux_vec)) eqn:E.
    + apply Nat.eqb_eq in E.
      change (match main_vec with [] => [] | _ :: _ => ?x end) with x.
      rewrite (@aux_plural_match aux_vec aux_geo s1 E); cbv zeta.
      match goal with |- context [weighted_average ?d None] =>
        destruct (weighted_average d None) as [m|e] eqn:Hw end.
      * rewrite correct_and_draw_calls; unfold add_calls; cbn [calls].
        rewrite <- app_assoc; reflexivity.
      * reflexivity.
    + apply Nat.eqb_neq in E.
      rewrite (@aux_plural_mismatch aux_vec aux_geo s1 E); reflexivity.
Qed.

Lemma process_and_plot_abort (to_numeric : string -> float) (s : App) :
  shape0 (valid_vectors to_numeric (table_main s)) = 0%nat
  \/ shape0 (valid_vectors to_numeric (table_aux s)) = 0%nat ->
  process_and_plot to_numeric s
  = (Done tt,
     mkApp (table_main s) (table_aux s)
           [Lit "请填写主数据和辅助数据的所有磁场分量"]
           (console s ++ [(GoldOnGreen, [Lit "[WARN] 数据不完整，无法计算。"; Lit nl])])
           true (figure s) (canvas s) (dialogs s) (calls s)).
Proof.
  unfold valid_vectors; intros H.
  unfold process_and_plot.
  unfold bind at 1, get at 1. unfold bind at 1.
  change (show_console s) with (Done tt, snd (show_console s)).
  cbv beta iota.
  assert (E : (Nat.eqb (shape0 (dropna3 (vector_columns (table_to_dataframe to_numeric (table_main s))))) 0
           || Nat.eqb (shape0 (dropna3 (vector_columns (table_to_dataframe to_numeric (table_aux s))))) 0) = true).
  { destruct H as [H|H]; rewrite H; simpl; [reflexivity | apply orb_true_r]. }
  rewrite E.
  destruct s as [tm ta lb co sh fg cv dl cl]; destruct sh; reflexivity.
Qed.

(** C8.  When the main table, or the auxiliary table, has no row with
    a complete magnetic vector, [process_and_plot] returns at once: it
    sets the label to a message for the user and writes one line to the
    console, which the console shows as a warning; no numerical
    function is called, and figure and canvas are as they were. *)
Theorem incomplete_vectors_abort (to_numeric : string -> float) (s : App) :
  shape0 (valid_vectors to_numeric (table_main s)) = 0%nat
  \/ shape0 (valid_vectors to_numeric (table_aux s)) = 0%nat ->
  let warn := [Lit "[WARN] 数据不完整，无法计算。"; Lit nl] in
  let s' := snd (process_and_plot to_numeric s) in
  fst (process_and_plot to_numeric s) = Done tt
  /\ label s' = [Lit "请填写主数据和辅助数据的所有磁场分量"]
  /\ console s' = (console s ++ [(write_colour warn, warn)])%list
  /\ write_colour warn = GoldOnGreen
  /\ calls s' = calls s
  /\ figure s' = figure s
  /\ canvas s' = canvas s
  /\ table_main s' = table_main s
  /\ table_aux s' = table_aux s.
Proof.
  intros H; cbv zeta.
  rewrite (process_and_plot_abort to_numeric s H); simpl.
  repeat split; reflexivity.
Qed.

Lemma incomplete_vectors_abort_witness :
  let s' := snd (process_and_plot decimal_to_numeric init_app) in
  label s' = [Lit "请填写主数据和辅助数据的所有磁场分量"]
  /\ calls s' = []
  /\ canvas s' = [].
Proof.
  pose proof (@incomplete_vectors_abort decimal_to_numeric init_app
                (or_introl eq_refl)) as H.
  cbv zeta in H.
  destruct H as (_ & Hl & _ & _ & Hc & _ & Hv & _).
  repeat split; assumption.
Defined.

(** C4.  When exactly one auxiliary row has a complete vector, a run
    of [process_and_plot] calls neither [detect_outliers_zscore] nor
    [weighted_average]; every correction it computes takes that row
    itself as the auxiliary mean, and it does compute one as soon as
    the main table has a row with a complete vector. *)
Theorem singleton_bypasses_filter_and_average
    (to_numeric : string -> float) (s : App) (row : vec3 float) :
  valid_vectors to_numeric (table_aux s) = [row] ->
  let main_vec := valid_vectors to_numeric (table_main s) in
  exists new,
    calls (snd (process_and_plot to_numeric s)) = (calls s ++ new)%list
    /\ (forall d t m, ~ In (CallDetect d t m) new)
    /\ (forall d w r, ~ In (CallAverage d w r) new)
    /\ (forall mv am f res, In (CallCorrect mv am f res) new -> am = row)
    /\ (shape0 main_vec <> 0%nat ->
        new = [CallCorrect main_vec row default_factor
                 (correct_main_data main_vec row default_factor)]).
Proof.
  intros Haux; cbv zeta.
  exists (pipeline_calls (valid_vectors to_numeric (table_main s)) [row]
                         (valid_positions to_numeric (table_aux s))).
  split; [rewrite process_and_plot_calls, Haux; reflexivity|].
  destruct (valid_vectors to_numeric (table_main s)) as [|m0 mv'] eqn:Hm;
    cbn [pipeline_calls].
  - repeat split; try (intros; intros []); try contradiction.
  - repeat split.
    + intros d t m [H|[]]; discriminate.
    + intros d w r [H|[]]; discriminate.
    + intros mv am f res [H|[]]; inversion H; reflexivity.
Qed.

Lemma singleton_bypasses_filter_and_average_witness :
  calls (snd (process_and_plot decimal_to_numeric
                (app_with sample_main sample_aux_one)))
  = [CallCorrect (valid_vectors decimal_to_numeric sample_main)
       (mk3 0 0 10)%float default_factor
       (correct_main_data (valid_vectors decimal_to_numeric sample_main)
          (mk3 0 0 10)%float default_factor)].
Proof.
  destruct (@singleton_bypasses_filter_and_average decimal_to_numeric
              (app_with sample_main sample_aux_one)
              (mk3 0 0 10)%float eq_refl)
    as (new & Hcalls & _ & _ & _ & Hnew).
  rewrite Hcalls, Hnew; [reflexivity | discriminate].
Defined.

(** With default weights the average of a non-empty matrix is always
    defined: the normalised weights are positive, and so is their sum. *)
Lemma weighted_average_default_total (data : matrix) :
  data <> [] -> exists m, weighted_average data None = Done m.
Proof.
  intros Hd; destruct data as [|r data']; [contradiction|].
  unfold weighted_average, shape0; cbn [length].
  rewrite normalize_ones.
  unfold NpAverage.average_axis0, shape0.
  rewrite repeat_length; cbn [length]; rewrite Nat.eqb_refl; cbn [negb].
  rewrite (positive_nonzero _
             (sum_repeat_positive _ (length data')
                (default_weight_positive (length data')))).
  eexists; reflexivity.
Qed.

Lemma plural_selection_nonempty {A} (a : list A) (mask : list bool) :
  a <> [] ->
  (if Nat.eqb (shape0 (unflagged a mask)) 0 then a else unflagged a mask) <> [].
Proof.
  intros Ha; destruct (Nat.eqb (shape0 (unflagged a mask)) 0) eqn:E;
    [assumption|].
  intros H; rewrite H in E; discriminate.
Qed.

(** The plural branch as the specification describes it, on tables
    whose auxiliary rows with a complete position are as many as those
    with a complete vector. *)
Lemma plural_runs_filter_then_average
    (to_numeric : string -> float) (s : App) :
  let main_vec := valid_vectors to_numeric (table_main s) in
  let aux_vec := valid_vectors to_numeric (table_aux s) in
  let aux_geo := valid_positions to_numeric (table_aux s) in
  shape0 main_vec <> 0%nat ->
  (2 <= shape0 aux_vec)%nat ->
  length aux_geo = length aux_vec ->
  let mask := detect_outliers_zscore aux_vec default_threshold in
  let sel := if Nat.eqb (shape0 (unflagged aux_vec mask)) 0
             then aux_vec else unflagged aux_vec mask in
  sel <> [] /\
  exists m,
    weighted_average sel None = Done m
    /\ calls (snd (process_and_plot to_numeric s))
       = (calls s ++ [CallDetect aux_vec default_threshold mask;
                      CallAverage sel None (Done m);
                      CallCorrect main_vec m default_factor
                        (correct_main_data main_vec m default_factor)])%list.
Proof.
  cbv zeta; intros Hm Ha Hg.
  rewrite process_and_plot_calls.
  set (main_vec := valid_vectors to_numeric (table_main s)) in *.
  set (aux_vec := valid_vectors to_numeric (table_aux s)) in *.
  set (aux_geo := valid_positions to_numeric (table_aux s)) in *.
  assert (Hne : aux_vec <> []) by (intros E; rewrite E in Ha; simpl in Ha; lia).
  pose proof (plural_selection_nonempty
                (detect_outliers_zscore aux_vec default_threshold) Hne) as Hsel.
  split; [exact Hsel|].
  destruct (weighted_average_default_total Hsel) as [m Hw].
  exists m; split; [exact Hw|].
  unfold pipeline_calls.
  destruct main_vec as [|m0 mv']; [exfalso; apply Hm; reflexivity|].
  destruct aux_vec as [|a0 [|a1 av']]; [simpl in Ha; lia | simpl in Ha; lia |].
  apply Nat.eqb_eq in Hg; rewrite Hg.
  match goal with
  | |- context [weighted_average ?d None] =>
      replace (weighted_average d None) with (Done m) by (symmetry; exact Hw)
  end.
  reflexivity.
Qed.

(** When the two counts differ, the run stops at line 250. *)
Lemma plural_position_gap_raises
    (to_numeric : string -> float) (s : App) :
  let main_vec := valid_vectors to_numeric (table_main s) in
  let aux_vec := valid_vectors to_numeric (table_aux s) in
  let aux_geo := valid_positions to_numeric (table_aux s) in
  shape0 main_vec <> 0%nat ->
  (2 <= shape0 aux_vec)%nat ->
  length aux_geo <> length aux_vec ->
  process_and_plot to_numeric s
  = (Raise index_error,
     add_calls (snd (show_console s))
       [CallDetect aux_vec default_threshold
          (detect_outliers_zscore aux_vec default_threshold)]).
Proof.
  cbv zeta; unfold valid_vectors, valid_positions; intros Hm Ha Hg.
  unfold process_and_plot.
  unfold bind at 1, get at 1. unfold bind at 1.
  change (show_console s) with (Done tt, snd (show_console s)).
  cbv beta iota.
  set (s1 := snd (show_console s)).
  set (main_vec := dropna3 (vector_columns (table_to_dataframe to_numeric (table_main s)))) in *.
  set (aux_vec := dropna3 (vector_columns (table_to_dataframe to_numeric (table_aux s)))) in *.
  set (aux_geo := dropna4 (geo_columns (table_to_dataframe to_numeric (table_aux s)))) in *.
  clearbody s1 main_vec aux_vec aux_geo.
  destruct main_vec as [|m0 mv']; [exfalso; apply Hm; reflexivity|].
  destruct aux_vec as [|a0 [|a1 av']]; [simpl in Ha; lia | simpl in Ha; lia |].
  cbn [shape0 length Nat.eqb orb].
  unfold bind at 1.
  rewrite (@aux_plural_mismatch (a0 :: a1 :: av') aux_geo s1 Hg).
  reflexivity.
Qed.

(** C5 (evaluation at a failing input).  One main row; two auxiliary
    rows with complete vectors, the second with a blank longitude.  The
    run calls [detect_outliers_zscore], then raises [IndexError] at
    [aux_geo[~outlier_mask]]: [weighted_average] is never called and no
    correction is computed. *)
Theorem plural_blank_longitude_raises :
  let s := app_with sample_main sample_aux_blank_lon in
  let r := process_and_plot decimal_to_numeric s in
  shape0 (valid_vectors decimal_to_numeric (table_main s)) = 1%nat
  /\ shape0 (valid_vectors decimal_to_numeric (table_aux s)) = 2%nat
  /\ shape0 (valid_positions decimal_to_numeric (table_aux s)) = 1%nat
  /\ fst r = Raise index_error
  /\ calls (snd r)
     = [CallDetect (valid_vectors decimal_to_numeric (table_aux s))
          default_threshold
          (detect_outliers_zscore
             (valid_vectors decimal_to_numeric (table_aux s))
             default_threshold)]
  /\ (forall d w res, ~ In (CallAverage d w res) (calls (snd r)))
  /\ canvas (snd r) = [].
Proof.
  cbv zeta.
  rewrite (@plural_position_gap_raises decimal_to_numeric
             (app_with sample_main sample_aux_blank_lon));
    [| discriminate | simpl; lia | discriminate].
  repeat split.
  intros d w res [H|[]]; discriminate.
Qed.

Lemma dropna3_complete_vector (df : frame) :
  dropna3 (vector_columns df) = vector_columns (filter Spec.complete_vector df).
Proof.
  unfold dropna3, vector_columns.
  induction df as [|r df IH]; simpl; [reflexivity|].
  unfold Spec.complete_vector at 1.
  destruct (negb (PrimFloat.is_nan (f_x r) || PrimFloat.is_nan (f_y r) || PrimFloat.is_nan (f_z r)));
    simpl; rewrite IH; reflexivity.
Qed.

Lemma in_pipeline_calls_correct main_vec aux_vec aux_geo mv am f res :
  In (CallCorrect mv am f res) (pipeline_calls main_vec aux_vec aux_geo) ->
  mv = main_vec /\ f = default_factor /\ res = correct_main_data main_vec am f.
Proof.
  unfold pipeline_calls.
  destruct main_vec as [|m0 mv0]; [intros []|].
  destruct aux_vec as [|a0 [|a1 av]]; [intros [] | |].
  - intros [H|[]]; inversion H; subst; repeat split.
  - intros [H|H]; [discriminate|].
    destruct (Nat.eqb (length aux_geo) (length (a0 :: a1 :: av))); [|destruct H].
    destruct H as [H|H]; [discriminate|].
    match type of H with
    | In _ (match ?w with _ => _ end) => destruct w
    end; [|destruct H].
    destruct H as [H|[]]; inversion H; subst; repeat split.
Qed.

(** C6 (counterexample).  One main row whose longitude is blank and
    whose vector is complete: the main table has no row that is valid
    in the claim's sense, yet the Correction Result has one row. *)
Lemma correction_length_counterexample :
  let s := app_with sample_main_blank_lon sample_aux_one in
  let main_df := table_to_dataframe decimal_to_numeric (table_main s) in
  length (filter Spec.valid_row main_df) = 0%nat
  /\ exists mv am f res,
       calls (snd (process_and_plot decimal_to_numeric s))
       = [CallCorrect mv am f res]
       /\ length res = 1%nat.
Proof.
  cbv zeta; split; [reflexivity|].
  rewrite process_and_plot_calls.
  do 4 eexists; split; reflexivity.
Qed.

(** C6 (amended).  The Correction Result is index-aligned with the main
    rows that have a complete magnetic vector, whatever their
    geo-position: every correction a run computes is taken over exactly
    those rows, in table order, row [i] of the result being the blend of
    row [i] of them; its length is their number, whatever the auxiliary
    table holds.  A correction is computed whenever both tables have
    such a row and the auxiliary table has one of them or as many rows
    with a complete position. *)
Theorem correction_aligned_with_vector_rows
    (to_numeric : string -> float) (s : App) :
  let main_df := table_to_dataframe to_numeric (table_main s) in
  let main_vec := valid_vectors to_numeric (table_main s) in
  let aux_vec := valid_vectors to_numeric (table_aux s) in
  let aux_geo := valid_positions to_numeric (table_aux s) in
  main_vec = vector_columns (filter Spec.complete_vector main_df)
  /\ exists new,
       calls (snd (process_and_plot to_numeric s)) = (calls s ++ new)%list
       /\ (forall mv am f res,
              In (CallCorrect mv am f res) new ->
              mv = main_vec
              /\ length res = length (filter Spec.complete_vector main_df)
              /\ forall i,
                   nth_error res i
                   = option_map
                       (fun row =>
                          vzip PrimFloat.add row
                               (vmap (PrimFloat.mul default_factor)
                                     (vzip PrimFloat.sub am row)))
                       (nth_error main_vec i))
       /\ (shape0 main_vec <> 0%nat ->
           shape0 aux_vec = 1%nat
           \/ ((2 <= shape0 aux_vec)%nat /\ length aux_geo = length aux_vec) ->
           exists am,
             In (CallCorrect main_vec am default_factor
                   (correct_main_data main_vec am default_factor)) new).
Proof.
  cbv zeta.
  assert (Hmv : valid_vectors to_numeric (table_main s)
                = vector_columns
                    (filter Spec.complete_vector
                       (table_to_dataframe to_numeric (table_main s))))
    by apply dropna3_complete_vector.
  split; [exact Hmv|].
  eexists; split; [apply process_and_plot_calls|]; split.
  - intros mv am f res Hin.
    apply in_pipeline_calls_correct in Hin; destruct Hin as (-> & -> & ->).
    split; [reflexivity|]; split.
    + unfold correct_main_data; rewrite length_map, Hmv.
      unfold vector_columns; apply length_map.
    + intros i; unfold correct_main_data; apply nth_error_map.
  - intros Hm [H1|[H2 Hg]].
    + destruct (valid_vectors to_numeric (table_aux s)) as [|a0 [|a1 av]];
        try discriminate.
      exists a0; unfold pipeline_calls.
      destruct (valid_vectors to_numeric (table_main s));
        [exfalso; apply Hm; reflexivity | left; reflexivity].
    + destruct (plural_runs_filter_then_average to_numeric s Hm H2 Hg)
        as (_ & m & _ & Hcalls).
      rewrite process_and_plot_calls in Hcalls.
      apply app_inv_head in Hcalls.
      exists m; rewrite Hcalls; simpl; auto.
Qed.

Lemma correction_aligned_with_vector_rows_witness :
  exists am res,
    In (CallCorrect (valid_vectors decimal_to_numeric sample_main_blank_lon)
          am default_factor res)
       (calls (snd (process_and_plot decimal_to_numeric
                      (app_with sample_main_blank_lon sample_aux))))
    /\ length res = 1%nat.
Proof.
  destruct (@correction_aligned_with_vector_rows decimal_to_numeric
              (app_with sample_main_blank_lon sample_aux))
    as (_ & new & Hcalls & Hall & Hex).
  destruct Hex as [am Hin];
    [discriminate | right; split; [simpl; lia | reflexivity] |].
  exists am; eexists; split.
  - rewrite Hcalls; simpl; exact Hin.
  - reflexivity.
Defined.


(* ================================================================== *)
(** ** Constant columns and single rows *)
(* ================================================================== *)















(** On one row the default-weight average is [(0 + x * 1) / 1] in
    every component. *)
Lemma weighted_average_single (r : vec3 float) :
  weighted_average [r] None = Done (vmap unsigned_zero r).
Proof.
  unfold weighted_average, shape0, Np.ones; cbn [length repeat map].
  change (Np.sum [1%float]) with 1%float.
  change (1 / 1)%float with 1%float.
  unfold NpAverage.average_axis0, shape0; cbn [length Nat.eqb negb].
  change (Np.sum [1%float]) with 1%float.
  change (PrimFloat.eqb 1 0) with false; cbv iota.
  unfold reduce_axis0, column, Np.sum, vmap;
    cbn [map comp combine fst snd fold_left vx vy vz].
  rewrite !div_one, !mul_one_r, !zero_add.
  reflexivity.
Qed.

Lemma aux_plural_single (r : vec3 float) (g : vec4 float) (s : App) :
  fst (aux_plural [r] [g] s) = Done ([r], [g], vmap unsigned_zero r).
Proof.
  pose proof (detect_length [r] default_threshold) as Hlen.
  rewrite (@aux_plural_match [r] [g] s eq_refl); cbv zeta.
  destruct (detect_outliers_zscore [r] default_threshold)
    as [|b [|b' m]]; try discriminate.
  destruct b;
    cbn [unflagged map negb combine filter snd fst shape0 length Nat.eqb];
    rewrite weighted_average_single; reflexivity.
Qed.

(** C10 (amended).  On a matrix of one row [weighted_average] with
    default weights returns that row with a negative zero read as zero:
    in every component the same number.  So the singleton branch, which
    takes the row itself, and the aggregation of the plural branch
    (filter, fall back when nothing is kept, average) give the same
    numbers on a one-row input, and the same vector exactly when the
    row has no negative zero. *)
Theorem singleton_agrees_with_plural (r : vec3 float) :
  weighted_average [r] None = Done (vmap unsigned_zero r)
  /\ (forall j, same_number (comp j (vmap unsigned_zero r)) (comp j r))
  /\ get_row [r] 0 = Done r
  /\ (let outlier_mask := detect_outliers_zscore [r] default_threshold in
      exists aux_valid,
        bool_index [r] (map negb outlier_mask) = Done aux_valid
        /\ weighted_average
             (if Nat.eqb (shape0 aux_valid) 0 then [r] else aux_valid) None
           = Done (vmap unsigned_zero r))
  /\ (forall (g : vec4 float) (s : App),
         fst (aux_singleton [r] [g] s) = Done ([r], [g], r)
         /\ fst (aux_plural [r] [g] s) = Done ([r], [g], vmap unsigned_zero r))
  /\ (forall (g : vec4 float) (s : App),
         fst (aux_plural [r] [g] s) = fst (aux_singleton [r] [g] s)
         <-> vmap unsigned_zero r = r)
  /\ ((forall j, PrimFloat.is_zero (comp j r) = false) ->
      forall (g : vec4 float) (s : App),
        fst (aux_plural [r] [g] s) = fst (aux_singleton [r] [g] s)).
Proof.
  pose proof (detect_length [r] default_threshold) as Hlen.
  split; [apply weighted_average_single|].
  split; [intros j; destruct j; apply unsigned_zero_same|].
  split; [reflexivity|].
  split; [|split; [|split]].
  - cbv zeta.
    exists (unflagged [r] (detect_outliers_zscore [r] default_threshold)).
    split.
    + unfold bool_index, shape0; rewrite length_map, Hlen; reflexivity.
    + destruct (detect_outliers_zscore [r] default_threshold)
        as [|b [|b' m]]; try discriminate.
      destruct b;
        cbn [unflagged map negb combine filter snd fst shape0 length Nat.eqb];
        apply weighted_average_single.
  - intros g s; split; [reflexivity | apply aux_plural_single].
  - intros g s; rewrite aux_plural_single.
    change (fst (aux_singleton [r] [g] s)) with (Done ([r], [g], r)).
    split; [|intros ->; reflexivity].
    intros H.
    exact (f_equal (fun o => match o with
                             | Done (_, _, m) => m
                             | Raise _ => r
                             end) H).
  - intros Hnz g s; rewrite aux_plural_single.
    assert (E : vmap unsigned_zero r = r).
    { destruct r as [a b c]; unfold vmap, unsigned_zero; cbn [vx vy vz].
      rewrite (Hnz AX : PrimFloat.is_zero a = false),
              (Hnz AY : PrimFloat.is_zero b = false),
              (Hnz AZ : PrimFloat.is_zero c = false); reflexivity. }
    rewrite E; reflexivity.
Qed.

(** C10 (counterexample).  The one row [(-0.0, 1, 2)]: its
    default-weight average is [(0.0, 1, 2)], the sum of the column
    starting from [0.0]; the singleton branch takes the row itself. *)
Lemma singleton_negative_zero_counterexample :
  let r := (mk3 (-0) 1 2)%float in
  weighted_average [r] None = Done (mk3 0 1 2)%float
  /\ get_row [r] 0 = Done r
  /\ (mk3 0 1 2)%float <> r
  /\ forall (g : vec4 float) (s : App),
       fst (aux_plural [r] [g] s) <> fst (aux_singleton [r] [g] s).
Proof.
  cbv zeta.
  assert (Hne : (mk3 0 1 2)%float <> (mk3 (-0) 1 2)%float).
  { intros H; apply (f_equal (fun v => Prim2SF (vx v))) in H.
    vm_compute in H; discriminate H. }
  split; [vm_compute; reflexivity|].
  split; [reflexivity|].
  split; [exact Hne|].
  intros g s H; rewrite aux_plural_single in H.
  apply (f_equal (fun o => match o with
                           | Done (_, _, m) => Prim2SF (vx m)
                           | Raise _ => S754_nan
                           end)) in H.
  vm_compute in H; discriminate H.
Qed.

(* ================================================================== *)
(** ** Loading a workbook with a missing column *)
(* ================================================================== *)

Lemma for_each_check (df : dataframe) (name : string) (cols : list string) (s : App) :
  for_each cols (fun col =>
    if negb (has_column col df) then
      show_console ;;
      console_write [Lit "[ERROR] "; Lit name; Lit "缺少列: "; Lit col; Lit nl] ;;
      raise (mkExn ValueError (name ++ "缺少列: " ++ col))
    else ret tt) s
  = match find (fun col => negb (has_column col df)) cols with
    | None => (Done tt, s)
    | Some col =>
        (Raise (mkExn ValueError (name ++ "缺少列: " ++ col)),
         snd (console_write
                [Lit "[ERROR] "; Lit name; Lit "缺少列: "; Lit col; Lit nl]
                (snd (show_console s))))
    end.
Proof.
  induction cols as [|c cols IH]; [reflexivity|].
  cbn [for_each find].
  destruct (negb (has_column c df)).
  - reflexivity.
  - unfold bind at 1; unfold ret at 1; exact IH.
Qed.

Lemma check_columns_run (df : dataframe) (name : string) (s : App) :
  check_columns df name s
  = match first_missing df with
    | None => (Done tt, s)
    | Some col =>
        (Raise (mkExn ValueError (name ++ "缺少列: " ++ col)),
         snd (console_write
                [Lit "[ERROR] "; Lit name; Lit "缺少列: "; Lit col; Lit nl]
                (snd (show_console s))))
    end.
Proof. apply for_each_check. Qed.

Lemma first_missing_some (df : dataframe) (col : string) :
  first_missing df = Some col -> In col FIELDS /\ has_column col df = false.
Proof.
  unfold first_missing; intros H; apply find_some in H.
  destruct H as [Hin Hf]; split; [exact Hin|].
  apply negb_true_iff; exact Hf.
Qed.

Lemma first_missing_none (df : dataframe) (col : string) :
  first_missing df = None -> In col FIELDS -> has_column col df = true.
Proof.
  unfold first_missing; intros H Hin.
  apply (find_none _ _ H) in Hin; apply negb_false_iff; exact Hin.
Qed.

Lemma write_colour_traceback (e : exn) : write_colour (format_exc e) = Red.
Proof.
  unfold write_colour.
  replace (text_startswith "Traceback" (format_exc e)) with true by reflexivity.
  rewrite orb_true_r; reflexivity.
Qed.

Lemma write_colour_failed (e : exn) :
  write_colour [Lit "[ERROR] 读取Excel失败:"; Lit nl; Lit (message e); Lit nl] = Red.
Proof. reflexivity. Qed.

Lemma write_colour_missing (name col : string) :
  write_colour [Lit "[ERROR] "; Lit name; Lit "缺少列: "; Lit col; Lit nl] = Red.
Proof. reflexivity. Qed.

(** The effect of the [except] branch of [load_excel] after a first
    console line [t1] was written. *)
Lemma load_excel_handler (s : App) (t1 : text) (e : exn) :
  let s1 := snd (console_write t1 (snd (show_console s))) in
  let s' := snd ((show_console ;;
                  console_write [Lit "[ERROR] 读取Excel失败:"; Lit nl;
                                 Lit (message e); Lit nl] ;;
                  console_write (format_exc e) ;;
                  message_critical [Lit "读取Excel失败:"; Lit nl; Lit (message e)])
                   s1) in
  table_main s' = table_main s
  /\ table_aux s' = table_aux s
  /\ console s'
     = (console s ++
        [(write_colour t1, t1);
         (Red, [Lit "[ERROR] 读取Excel失败:"; Lit nl; Lit (message e); Lit nl]);
         (Red, format_exc e)])%list
  /\ dialogs s' = (dialogs s ++ [[Lit "读取Excel失败:"; Lit nl; Lit (message e)]])%list
  /\ label s' = label s
  /\ figure s' = figure s
  /\ canvas s' = canvas s
  /\ calls s' = calls s.
Proof.
  cbv zeta.
  pose proof (write_colour_traceback e) as Htb.
  pose proof (write_colour_failed e) as Hf.
  destruct s as [tm ta lb co sh fg cv dl cl].
  munfold; destruct sh; cbn -[write_colour format_exc];
    rewrite Htb, Hf, <- !app_assoc; repeat split.
Qed.

(** The schema check of [load_excel] on the two frames. *)
Lemma load_excel_check (file_path : string) (main_df : dataframe)
    (rest : list dataframe) (s : App) :
  String.eqb file_path "" = false ->
  let aux_df := hd main_df rest in
  forall name col,
    (first_missing main_df = Some col /\ name = "主数据")
    \/ (first_missing main_df = None /\ first_missing aux_df = Some col
        /\ name = "辅助数据") ->
    let err := mkExn ValueError (name ++ "缺少列: " ++ col) in
    load_excel file_path (Done (main_df :: rest)) s
    = (show_console ;;
       console_write [Lit "[ERROR] 读取Excel失败:"; Lit nl;
                      Lit (message err); Lit nl] ;;
       console_write (format_exc err) ;;
       message_critical [Lit "读取Excel失败:"; Lit nl; Lit (message err)])
        (snd (console_write
                [Lit "[ERROR] "; Lit name; Lit "缺少列: "; Lit col; Lit nl]
                (snd (show_console s)))).
Proof.
  intros Hfp aux_df name col H; cbv zeta.
  unfold load_excel; rewrite Hfp; unfold try_except.
  unfold bind at 1, lift at 1; cbv beta iota.
  unfold bind at 1, lift at 1; cbn [get_row nth_error]; cbv beta iota.
  unfold bind at 1.
  assert (Haux : (if Nat.ltb 1 (length (main_df :: rest))
                  then lift (get_row (main_df :: rest) 1) else ret main_df) s
                 = (Done aux_df, s)).
  { subst aux_df; destruct rest; reflexivity. }
  rewrite Haux; cbv beta iota.
  unfold bind at 1; cbn [for_each fst snd].
  unfold bind at 1; rewrite check_columns_run.
  destruct H as [[Hm ->] | (Hm & Ha & ->)]; rewrite Hm.
  - reflexivity.
  - unfold bind at 1; rewrite check_columns_run, Ha; reflexivity.
Qed.

(** C7.  Loading a workbook in which the main sheet, or the auxiliary
    sheet (the second sheet, or the first when there is no second),
    lacks one of the seven required columns: the load raises and
    reports a [ValueError] whose message names the first such column
    and the sheet, on the console (in the colour of errors) and in a
    message box; both tables are what they were before, as are label,
    figure and canvas.  [load_excel] converts no cell to a number, so
    the check precedes every coercion: that is [table_to_dataframe]'s
    work, in [process_and_plot]. *)
Theorem load_excel_missing_column
    (file_path : string) (main_df : dataframe) (rest : list dataframe)
    (s : App) :
  String.eqb file_path "" = false ->
  let aux_df := hd main_df rest in
  (exists col, In col FIELDS
               /\ (has_column col main_df = false
                   \/ has_column col aux_df = false)) ->
  exists name col,
    In col FIELDS
    /\ ((name = "主数据" /\ has_column col main_df = false)
        \/ (name = "辅助数据" /\ has_column col aux_df = false))
    /\ let err := mkExn ValueError (name ++ "缺少列: " ++ col) in
       let r := load_excel file_path (Done (main_df :: rest)) s in
       table_main (snd r) = table_main s
       /\ table_aux (snd r) = table_aux s
       /\ console (snd r)
          = (console s ++
             [(Red, [Lit "[ERROR] "; Lit name; Lit "缺少列: "; Lit col; Lit nl]);
              (Red, [Lit "[ERROR] 读取Excel失败:"; Lit nl;
                     Lit (message err); Lit nl]);
              (Red, format_exc err)])%list
       /\ dialogs (snd r)
          = (dialogs s ++ [[Lit "读取Excel失败:"; Lit nl; Lit (message err)]])%list
       /\ label (snd r) = label s
       /\ figure (snd r) = figure s
       /\ canvas (snd r) = canvas s
       /\ calls (snd r) = calls s.
Proof.
  intros Hfp aux_df [c [Hc Hmiss]].
  assert (Hcase : exists name col,
             (first_missing main_df = Some col /\ name = "主数据")
             \/ (first_missing main_df = None /\ first_missing aux_df = Some col
                 /\ name = "辅助数据")).
  { destruct (first_missing main_df) as [col|] eqn:Hm.
    - exists "主数据", col; left; split; reflexivity.
    - destruct (first_missing aux_df) as [col|] eqn:Ha.
      + exists "辅助数据", col; right; repeat split; reflexivity.
      + exfalso.
        pose proof (first_missing_none main_df Hm Hc) as H1.
        pose proof (first_missing_none aux_df Ha Hc) as H2.
        destruct Hmiss as [H|H]; congruence. }
  destruct Hcase as (name & col & Hcase).
  exists name, col.
  assert (Hin : In col FIELDS
                /\ ((name = "主数据" /\ has_column col main_df = false)
                    \/ (name = "辅助数据" /\ has_column col aux_df = false))).
  { destruct Hcase as [[Hm ->] | (Hm & Ha & ->)].
    - apply first_missing_some in Hm; destruct Hm; split; [|left]; auto.
    - apply first_missing_some in Ha; destruct Ha; split; [|right]; auto. }
  destruct Hin as [Hin Hwhich].
  split; [exact Hin|]; split; [exact Hwhich|].
  cbv zeta.
  rewrite (@load_excel_check file_path main_df rest s Hfp name col Hcase).
  rewrite <- (write_colour_missing name col).
  apply load_excel_handler.
Qed.

Lemma load_excel_missing_column_witness :
  let s := app_with sample_main sample_aux in
  let r := load_excel "survey.xlsx" (Done [sample_sheet_no_z]) s in
  has_column "Z轴分量(nT)" sample_sheet_no_z = false
  /\ table_main (snd r) = sample_main
  /\ table_aux (snd r) = sample_aux.
Proof.
  cbv zeta.
  destruct (@load_excel_missing_column "survey.xlsx" sample_sheet_no_z []
              (app_with sample_main sample_aux) eq_refl)
    as (name & col & _ & _ & Htm & Hta & _).
  - exists "Z轴分量(nT)"; split; [simpl; tauto | left; reflexivity].
  - repeat split; assumption.
Defined.

(* ================================================================== *)
(** ** Worked examples *)
(* ================================================================== *)

(** Two rows one unit either side of the mean have z-score 1: flagged
    at threshold 1/2, not flagged at the default threshold. *)
Example detect_two_rows :
  detect_outliers_zscore [mk3 0 0 0; mk3 2 0 0]%float 0.5%float
  = [true; true]
  /\ detect_outliers_zscore [mk3 0 0 0; mk3 2 0 0]%float default_threshold
     = [false; false]
  /\ Binary64.zscore [0; 2]%float 2%float = 1%float.
Proof. repeat split; vm_compute; reflexivity. Qed.

(** The end-to-end example of the specification: main
    [(1, 1, 0, 0, 10, 0, 0)], auxiliary [(1, 1, 0, 0, 0, 0, 10)] and
    [(1, 1, 0, 0, 0, 0, 12)].  No auxiliary row is flagged, the
    auxiliary mean is [(0, 0, 11)], and so is the corrected main row. *)
Example end_to_end_sample :
  let s := app_with sample_main sample_aux in
  let main_vec := valid_vectors decimal_to_numeric sample_main in
  let aux_vec := valid_vectors decimal_to_numeric sample_aux in
  main_vec = [mk3 10 0 0]%float
  /\ aux_vec = [mk3 0 0 10; mk3 0 0 12]%float
  /\ calls (snd (process_and_plot decimal_to_numeric s))
     = [CallDetect aux_vec default_threshold [false; false];
        CallAverage aux_vec None (Done (mk3 0 0 11)%float);
        CallCorrect main_vec (mk3 0 0 11)%float default_factor
          [mk3 0 0 11]%float].
Proof.
  cbv zeta; split; [reflexivity|]; split; [reflexivity|].
  rewrite process_and_plot_calls; vm_compute; reflexivity.
Qed.

(* ================================================================== *)
(** ** What a run changes and what it leaves alone *)
(* ================================================================== *)

Ltac not_red :=
  let c := fresh "c" in
  let t := fresh "t" in
  let Hin := fresh "Hin" in
  intros c t Hin; cbn [In] in Hin;
  repeat (destruct Hin as [Hin|Hin];
          [inversion Hin; subst; vm_compute; discriminate|]);
  destruct Hin.

Lemma correct_and_draw_frame mv mg av agv am s :
  let r := correct_and_draw mv mg av agv am s in
  table_main (snd r) = table_main s
  /\ table_aux (snd r) = table_aux s
  /\ dialogs (snd r) = dialogs s
  /\ console_shown (snd r) = console_shown s
  /\ (exists new, console (snd r) = (console s ++ new)%list
                  /\ forall c t, In (c, t) new -> c <> Red)
  /\ (forall e, fst r = Raise e ->
                kind e = ValueError /\ canvas (snd r) = canvas s)
  /\ (fst r = Done tt ->
      canvas (snd r) = figure (snd r)
      /\ label (snd r) = [Lit "修正与可视化完成。"]).
Proof.
  cbv zeta; unfold correct_and_draw; munfold.
  destruct mv as [|m0 mv']; cbn -[write_colour]; mcase.
  all: repeat split; try reflexivity; try discriminate;
    try match goal with
        | H : Raise _ = Raise _ |- _ => inversion H; subst; reflexivity
        | H : Done _ = Raise _ |- _ => discriminate H
        | H : Raise _ = Done _ |- _ => discriminate H
        end.
  all: rewrite <- ?app_assoc; cbn [app]; eexists; (split; [reflexivity|]); not_red.
Qed.

Lemma add_calls_nil (s : App) : add_calls s [] = s.
Proof. destruct s; unfold add_calls; simpl; rewrite app_nil_r; reflexivity. Qed.

(** Either branch on the auxiliary rows only records calls, and can
    only fail with the [IndexError] of a mask that does not fit. *)
Lemma aux_branch_effects (aux_vec : matrix) (aux_geo : list (vec4 float)) (s : App) :
  aux_vec <> [] ->
  let r := (if Nat.eqb (shape0 aux_vec) 1 then aux_singleton aux_vec aux_geo
            else aux_plural aux_vec aux_geo) s in
  (exists cs, snd r = add_calls s cs)
  /\ (forall e, fst r = Raise e -> e = index_error).
Proof.
  intros Hne; cbv zeta.
  destruct aux_vec as [|a0 [|a1 av]]; [contradiction| |].
  - cbn [shape0 length Nat.eqb]; split.
    + exists []; rewrite add_calls_nil; reflexivity.
    + intros e He; discriminate He.
  - cbn [shape0 length Nat.eqb].
    destruct (Nat.eq_dec (length aux_geo) (length (a0 :: a1 :: av))) as [E|E].
    + rewrite (@aux_plural_match (a0 :: a1 :: av) aux_geo s E); cbv zeta.
      match goal with
      | |- context [weighted_average ?d None] =>
          destruct (@weighted_average_default_total d) as [m Hm]
      end.
      { apply plural_selection_nonempty; discriminate. }
      match goal with
      | |- context [weighted_average ?d None] =>
          replace (weighted_average d None) with (Done m) by (symmetry; exact Hm)
      end.
      split; [eexists; reflexivity | intros e He; discriminate He].
    + rewrite (@aux_plural_mismatch (a0 :: a1 :: av) aux_geo s E).
      split; [eexists; reflexivity | intros e He; inversion He; reflexivity].
Qed.

(** Past the guard of line 222 a run is a branch on the auxiliary rows
    followed by the correction and the drawing. *)
Lemma process_and_plot_proceeds (to_numeric : string -> float) (s : App) :
  shape0 (valid_vectors to_numeric (table_main s)) <> 0%nat ->
  shape0 (valid_vectors to_numeric (table_aux s)) <> 0%nat ->
  let main_vec := valid_vectors to_numeric (table_main s) in
  let aux_vec := valid_vectors to_numeric (table_aux s) in
  let main_geo := valid_positions to_numeric (table_main s) in
  let aux_geo := valid_positions to_numeric (table_aux s) in
  process_and_plot to_numeric s
  = match (if Nat.eqb (shape0 aux_vec) 1 then aux_singleton aux_vec aux_geo
           else aux_plural aux_vec aux_geo) (snd (show_console s)) with
    | (Done (av, agv, am), s') => correct_and_draw main_vec main_geo av agv am s'
    | (Raise e, s') => (Raise e, s')
    end.
Proof.
  unfold valid_vectors, valid_positions; intros Hm Ha; cbv zeta.
  unfold process_and_plot.
  unfold bind at 1, get at 1. unfold bind at 1.
  change (show_console s) with (Done tt, snd (show_console s)).
  cbv beta iota.
  apply Nat.eqb_neq in Hm; apply Nat.eqb_neq in Ha; rewrite Hm, Ha; cbn [orb].
  unfold bind at 1; cbn [snd].
  match goal with
  | |- context [(if ?c then ?a else ?b) ?s1] =>
      destruct ((if c then a else b) s1) as [[[[av agv] am]|e] s2]
  end; reflexivity.
Qed.

Lemma show_console_frame (s : App) :
  table_main (snd (show_console s)) = table_main s
  /\ table_aux (snd (show_console s)) = table_aux s
  /\ dialogs (snd (show_console s)) = dialogs s
  /\ console (snd (show_console s)) = console s
  /\ canvas (snd (show_console s)) = canvas s
  /\ figure (snd (show_console s)) = figure s
  /\ label (snd (show_console s)) = label s
  /\ console_shown (snd (show_console s)) = true.
Proof.
  unfold show_console, modify; destruct s as [tm ta lb co sh fg cv dl cl];
    destruct sh; repeat split.
Qed.

Lemma process_and_plot_effects (to_numeric : string -> float) (s : App) :
  let r := process_and_plot to_numeric s in
  table_main (snd r) = table_main s
  /\ table_aux (snd r) = table_aux s
  /\ dialogs (snd r) = dialogs s
  /\ console_shown (snd r) = true
  /\ (exists new, console (snd r) = (console s ++ new)%list
                  /\ forall c t, In (c, t) new -> c <> Red)
  /\ (forall e, fst r = Raise e ->
                (e = index_error \/ kind e = ValueError)
                /\ canvas (snd r) = canvas s)
  /\ (fst r = Done tt ->
      shape0 (valid_vectors to_numeric (table_main s)) <> 0%nat ->
      shape0 (valid_vectors to_numeric (table_aux s)) <> 0%nat ->
      canvas (snd r) = figure (snd r)
      /\ label (snd r) = [Lit "修正与可视化完成。"]).
Proof.
  cbv zeta.
  destruct (Nat.eq_dec (shape0 (valid_vectors to_numeric (table_main s))) 0) as [Hm|Hm];
    [|destruct (Nat.eq_dec (shape0 (valid_vectors to_numeric (table_aux s))) 0) as [Ha|Ha]].
  1,2: rewrite process_and_plot_abort by auto; cbn [fst snd table_main table_aux
         dialogs console_shown console canvas];
       repeat split; try discriminate; try contradiction;
       eexists; (split; [reflexivity|]); not_red.
  rewrite (process_and_plot_proceeds to_numeric s Hm Ha); cbv zeta.
  destruct (show_console_frame s) as (Ht1 & Ht2 & Hd & Hco & Hcv & _ & _ & Hsh).
  set (s1 := snd (show_console s)) in *.
  set (main_vec := valid_vectors to_numeric (table_main s)) in *.
  set (aux_vec := valid_vectors to_numeric (table_aux s)) in *.
  set (aux_geo := valid_positions to_numeric (table_aux s)).
  set (main_geo := valid_positions to_numeric (table_main s)).
  clearbody s1 aux_geo main_geo.
  assert (Hne : aux_vec <> []) by (intros E; rewrite E in Ha; apply Ha; reflexivity).
  destruct (aux_branch_effects aux_geo s1 Hne) as [[cs Hcs] Hraise].
  destruct ((if Nat.eqb (shape0 aux_vec) 1 then aux_singleton aux_vec aux_geo
             else aux_plural aux_vec aux_geo) s1) as [[[[av agv] am]|e] s2].
  - cbn [snd] in Hcs; subst s2.
    pose proof (correct_and_draw_frame main_vec main_geo av agv am (add_calls s1 cs))
      as H; cbv zeta in H.
    destruct H as (H1 & H2 & H3 & H4 & [new [H5 H6]] & H7 & H8).
    cbn [add_calls table_main table_aux dialogs console_shown console canvas] in *.
    split; [congruence|]; split; [congruence|]; split; [congruence|].
    split; [congruence|].
    split; [exists new; split; [congruence | exact H6]|].
    split.
    + intros e He; destruct (H7 e He) as [Hk Hc]; split; [right; exact Hk | congruence].
    + intros Hd' _ _; apply H8; exact Hd'.
  - cbn [snd] in Hcs; subst s2; cbn [fst snd] in *.
    cbn [add_calls table_main table_aux dialogs console_shown console canvas].
    split; [congruence|]; split; [congruence|]; split; [congruence|].
    split; [congruence|].
    split; [exists []; rewrite app_nil_r; split; [congruence | intros ? ? []]|].
    split.
    + intros e' He; inversion He; subst e'; split; [left; apply Hraise; reflexivity | congruence].
    + intros Hd'; discriminate Hd'.
Qed.

(** X1.  A run of [process_and_plot] never changes a table and never
    opens a message box, whatever the tables hold and however it ends. *)
Theorem process_and_plot_keeps_tables (to_numeric : string -> float) (s : App) :
  let s' := snd (process_and_plot to_numeric s) in
  table_main s' = table_main s
  /\ table_aux s' = table_aux s
  /\ dialogs s' = dialogs s.
Proof.
  cbv zeta.
  destruct (process_and_plot_effects to_numeric s) as (H1 & H2 & H3 & _).
  repeat split; assumption.
Qed.

(** X2.  A run of [process_and_plot] only appends to the console, and
    leaves it shown; none of the lines it writes is shown as an error,
    also when the run ends with an exception. *)
Theorem process_and_plot_console_only_grows
    (to_numeric : string -> float) (s : App) :
  let s' := snd (process_and_plot to_numeric s) in
  console_shown s' = true
  /\ exists new,
       console s' = (console s ++ new)%list
       /\ forall c t, In (c, t) new -> c <> Red.
Proof.
  cbv zeta.
  destruct (process_and_plot_effects to_numeric s) as (_ & _ & _ & H4 & H5 & _).
  split; assumption.
Qed.

(** X3.  When a run of [process_and_plot] ends with an exception, it
    is the [IndexError] of the mask that does not fit the positions or
    the [ValueError] of arrays that do not broadcast in [quiver] (so
    never a [ZeroDivisionError] or a [KeyError]), and the canvas still
    shows what it showed before. *)
Theorem process_and_plot_failure_keeps_canvas
    (to_numeric : string -> float) (s : App) (e : exn) :
  fst (process_and_plot to_numeric s) = Raise e ->
  (e = index_error \/ kind e = ValueError)
  /\ kind e <> ZeroDivisionError
  /\ kind e <> KeyError
  /\ canvas (snd (process_and_plot to_numeric s)) = canvas s.
Proof.
  intros He.
  destruct (process_and_plot_effects to_numeric s) as (_ & _ & _ & _ & _ & H6 & _).
  destruct (H6 e He) as [Hk Hc].
  repeat split; try assumption;
    destruct Hk as [-> | Hk]; try discriminate; rewrite Hk; discriminate.
Qed.

Lemma process_and_plot_failure_keeps_canvas_witness :
  canvas (snd (process_and_plot decimal_to_numeric
                 (app_with sample_main sample_aux_blank_lon))) = [].
Proof.
  refine (proj2 (proj2 (proj2
    (@process_and_plot_failure_keeps_canvas decimal_to_numeric
       (app_with sample_main sample_aux_blank_lon) index_error _)))).
  rewrite (@plural_position_gap_raises decimal_to_numeric
             (app_with sample_main sample_aux_blank_lon));
    [reflexivity | discriminate | simpl; lia | discriminate].
Defined.

Lemma unflagged_length {A B} (a : list A) (b : list B) (mask : list bool) :
  length a = length b ->
  length (unflagged a mask) = length (unflagged b mask).
Proof.
  unfold unflagged; revert b mask.
  induction a as [|x a IH]; intros [|y b] mask Hlen; try discriminate;
    [reflexivity|].
  destruct mask as [|m mask]; [reflexivity|].
  injection Hlen as Hlen.
  cbn [map combine filter snd]; destruct (negb m); cbn [map length];
    rewrite (IH b mask Hlen); reflexivity.
Qed.

Lemma correct_and_draw_complete mv mg av agv am s :
  length mg = length mv -> length agv = length av ->
  mv <> [] -> av <> [] ->
  let r := correct_and_draw mv mg av agv am s in
  fst r = Done tt
  /\ canvas (snd r)
     = [mkQuiver (origins agv) av "green" "辅助数据";
        mkQuiver (origins mg) mv "blue" "主数据";
        mkQuiver (origins mg) (correct_main_data mv am default_factor)
                 "red" "修正后主数据"]
  /\ label (snd r) = [Lit "修正与可视化完成。"].
Proof.
  intros Hm Ha Hmv Hav; cbv zeta.
  destruct mv as [|m0 mv']; [contradiction|].
  destruct av as [|a0 av']; [contradiction|].
  destruct mg as [|g0 mg']; [discriminate|].
  destruct agv as [|h0 agv']; [discriminate|].
  unfold correct_and_draw; munfold; unfold shape0.
  remember (correct_main_data (m0 :: mv') am default_factor) as mc eqn:Hmc.
  assert (Hc : length mc = length (g0 :: mg'))
    by (rewrite Hmc; unfold correct_main_data; rewrite length_map;
        symmetry; exact Hm).
  destruct mc as [|c0 mc']; [discriminate Hc|].
  apply Nat.eqb_eq in Hm, Ha; symmetry in Hc; apply Nat.eqb_eq in Hc.
  cbn -[write_colour Nat.eqb].
  cbn [length] in Hm, Ha, Hc; rewrite Hm, Ha; cbn -[write_colour Nat.eqb].
  rewrite Hc; cbn -[write_colour]; repeat split.
Qed.

(** X4.  When in each table the rows with a complete position are as
    many as the rows with a complete vector, and there is at least one,
    a run of [process_and_plot] completes: the canvas shows exactly
    three arrow sets, green (auxiliary), blue (main) and red (corrected
    main), each with as many origins as arrows, the red arrows being
    the correction of the blue ones, and the label reports success. *)
Theorem process_and_plot_completes (to_numeric : string -> float) (s : App) :
  let main_vec := valid_vectors to_numeric (table_main s) in
  let aux_vec := valid_vectors to_numeric (table_aux s) in
  let main_geo := valid_positions to_numeric (table_main s) in
  let aux_geo := valid_positions to_numeric (table_aux s) in
  length main_geo = length main_vec -> length aux_geo = length aux_vec ->
  main_vec <> [] -> aux_vec <> [] ->
  let r := process_and_plot to_numeric s in
  fst r = Done tt
  /\ label (snd r) = [Lit "修正与可视化完成。"]
  /\ exists av agv am,
       length agv = length av /\ av <> []
       /\ canvas (snd r)
          = [mkQuiver (origins agv) av "green" "辅助数据";
             mkQuiver (origins main_geo) main_vec "blue" "主数据";
             mkQuiver (origins main_geo)
                      (correct_main_data main_vec am default_factor)
                      "red" "修正后主数据"].
Proof.
  cbv zeta; intros Hm Ha Hmv Hav.
  rewrite process_and_plot_proceeds;
    [| destruct (valid_vectors to_numeric (table_main s));
       [contradiction | discriminate]
     | destruct (valid_vectors to_numeric (table_aux s));
       [contradiction | discriminate]].
  cbv zeta.
  set (s1 := snd (show_console s)).
  set (main_vec := valid_vectors to_numeric (table_main s)) in *.
  set (aux_vec := valid_vectors to_numeric (table_aux s)) in *.
  set (aux_geo := valid_positions to_numeric (table_aux s)) in *.
  set (main_geo := valid_positions to_numeric (table_main s)) in *.
  clearbody s1 main_vec aux_vec aux_geo main_geo.
  assert (Hbranch : exists av agv am s2,
             (if Nat.eqb (shape0 aux_vec) 1 then aux_singleton aux_vec aux_geo
              else aux_plural aux_vec aux_geo) s1 = (Done (av, agv, am), s2)
             /\ length agv = length av /\ av <> []).
  { destruct aux_vec as [|a0 [|a1 av']]; [contradiction| |].
    - exists [a0], aux_geo, a0, s1; repeat split; [assumption | discriminate].
    - cbn [shape0 length Nat.eqb].
      rewrite (@aux_plural_match (a0 :: a1 :: av') aux_geo s1 Ha); cbv zeta.
      set (mask := detect_outliers_zscore (a0 :: a1 :: av') default_threshold).
      match goal with
      | |- context [weighted_average ?d None] =>
          destruct (@weighted_average_default_total d) as [m Hw]
      end.
      { apply plural_selection_nonempty; discriminate. }
      match goal with
      | |- context [weighted_average ?d None] =>
          replace (weighted_average d None) with (Done m) by (symmetry; exact Hw)
      end.
      do 4 eexists; split; [reflexivity|]; split.
      + destruct (Nat.eqb (shape0 (unflagged (a0 :: a1 :: av') mask)) 0);
          [assumption | apply unflagged_length; assumption].
      + apply plural_selection_nonempty; discriminate. }
  destruct Hbranch as (av & agv & am & s2 & Hb & Hlen & Hne).
  rewrite Hb.
  destruct (@correct_and_draw_complete main_vec main_geo av agv am s2
              Hm Hlen Hmv Hne) as (H1 & H2 & H3).
  split; [exact H1|]; split; [exact H3|].
  exists av, agv, am; repeat split; assumption.
Qed.

Lemma process_and_plot_completes_witness :
  fst (process_and_plot decimal_to_numeric (app_with sample_main sample_aux))
  = Done tt.
Proof.
  refine (proj1 (@process_and_plot_completes decimal_to_numeric
                   (app_with sample_main sample_aux) _ _ _ _));
    try reflexivity; discriminate.
Defined.

(* ================================================================== *)
(** ** Loading: every way a load can end *)
(* ================================================================== *)

Lemma index_of_has_column (col : string) (cols : list string) :
  existsb (String.eqb col) cols = true -> exists i, index_of col cols = Some i.
Proof.
  induction cols as [|c cols IH]; cbn [existsb index_of]; [discriminate|].
  destruct (String.eqb col c); [intros _; exists 0%nat; reflexivity|].
  cbn [orb]; intros H; destruct (IH H) as [i Hi]; rewrite Hi.
  exists (S i); reflexivity.
Qed.

Lemma select_fields_after_check (df : dataframe) :
  first_missing df = None ->
  exists sel, select_fields df = Done sel /\ length sel = length (rows df).
Proof.
  intros Hnone.
  assert (Hall : forall col, In col FIELDS ->
                   exists i, index_of col (columns df) = Some i).
  { intros col Hin; apply index_of_has_column.
    exact (first_missing_none df Hnone Hin). }
  unfold select_fields; cbn [map FIELDS].
  repeat match goal with
    | |- context [index_of ?c (columns df)] =>
        let i := fresh "i" in
        let Hi := fresh "Hi" in
        destruct (Hall c) as [i Hi]; [cbn; tauto | rewrite Hi]
    end.
  eexists; split; [reflexivity | apply length_map].
Qed.

(** The [except] branch of [load_excel], from any state. *)
Lemma load_excel_except (e : exn) (s1 : App) :
  let r := (show_console ;;
            console_write [Lit "[ERROR] 读取Excel失败:"; Lit nl;
                           Lit (message e); Lit nl] ;;
            console_write (format_exc e) ;;
            message_critical [Lit "读取Excel失败:"; Lit nl; Lit (message e)])
             s1 in
  fst r = Done tt
  /\ table_main (snd r) = table_main s1
  /\ table_aux (snd r) = table_aux s1
  /\ console (snd r)
     = (console s1 ++
        [(Red, [Lit "[ERROR] 读取Excel失败:"; Lit nl; Lit (message e); Lit nl]);
         (Red, format_exc e)])%list
  /\ dialogs (snd r)
     = (dialogs s1 ++ [[Lit "读取Excel失败:"; Lit nl; Lit (message e)]])%list
  /\ label (snd r) = label s1
  /\ figure (snd r) = figure s1
  /\ canvas (snd r) = canvas s1
  /\ calls (snd r) = calls s1
  /\ console_shown (snd r) = true.
Proof.
  cbv zeta.
  pose proof (write_colour_traceback e) as Htb.
  pose proof (write_colour_failed e) as Hf.
  destruct s1 as [tm ta lb co sh fg cv dl cl].
  munfold; destruct sh; cbn -[write_colour format_exc];
    rewrite Htb, Hf, <- !app_assoc; repeat split.
Qed.

(** How [load_excel] unfolds on each kind of input. *)
Lemma load_excel_cancelled (xls : outcome workbook) (s : App) :
  load_excel "" xls s = (Done tt, s).
Proof. reflexivity. Qed.

Lemma load_excel_unreadable (file_path : string) (e : exn) (s : App) :
  String.eqb file_path "" = false ->
  load_excel file_path (Raise e) s
  = (show_console ;;
     console_write [Lit "[ERROR] 读取Excel失败:"; Lit nl; Lit (message e); Lit nl] ;;
     console_write (format_exc e) ;;
     message_critical [Lit "读取Excel失败:"; Lit nl; Lit (message e)]) s.
Proof. intros Hfp; unfold load_excel; rewrite Hfp; reflexivity. Qed.

Lemma load_excel_no_sheet (file_path : string) (s : App) :
  String.eqb file_path "" = false ->
  let e := mkExn IndexError "index is out of bounds for axis 0" in
  load_excel file_path (Done []) s
  = (show_console ;;
     console_write [Lit "[ERROR] 读取Excel失败:"; Lit nl; Lit (message e); Lit nl] ;;
     console_write (format_exc e) ;;
     message_critical [Lit "读取Excel失败:"; Lit nl; Lit (message e)]) s.
Proof. intros Hfp; unfold load_excel; rewrite Hfp; reflexivity. Qed.

Lemma load_excel_accepts (file_path : string) (main_df : dataframe)
    (rest : list dataframe) (s : App) (m a : list (rec7 string)) :
  String.eqb file_path "" = false ->
  first_missing main_df = None ->
  first_missing (hd main_df rest) = None ->
  select_fields main_df = Done m ->
  select_fields (hd main_df rest) = Done a ->
  load_excel file_path (Done (main_df :: rest)) s
  = (set_table_main (dataframe_to_table m) ;;
     set_table_aux (dataframe_to_table a) ;;
     label_setText [Lit "已加载Excel: "; Lit file_path; Lit nl;
                    Lit "主数据"; ShowNat (shape0 m);
                    Lit "行，辅助数据"; ShowNat (shape0 a); Lit "行"] ;;
     show_console ;;
     console_write [Lit "[INFO] Excel加载成功："; Lit file_path; Lit nl]) s.
Proof.
  intros Hfp Hm Ha Hsm Hsa.
  unfold load_excel; rewrite Hfp; unfold try_except.
  unfold bind at 1, lift at 1; cbv beta iota.
  unfold bind at 1, lift at 1; cbn [get_row nth_error]; cbv beta iota.
  unfold bind at 1.
  assert (Haux : (if Nat.ltb 1 (length (main_df :: rest))
                  then lift (get_row (main_df :: rest) 1) else ret main_df) s
                 = (Done (hd main_df rest), s))
    by (destruct rest; reflexivity).
  rewrite Haux; cbv beta iota.
  unfold bind at 1; cbn [for_each fst snd].
  unfold bind at 1; rewrite check_columns_run, Hm.
  unfold bind at 1; rewrite check_columns_run, Ha.
  unfold ret at 1.
  unfold bind at 1, lift at 1; rewrite Hsm.
  unfold bind at 1, lift at 1; rewrite Hsa.
  munfold; destruct s as [tm ta lb co sh fg cv dl cl]; destruct sh; reflexivity.
Qed.

Lemma first_missing_none_intro (df : dataframe) :
  (forall col, In col FIELDS -> has_column col df = true) ->
  first_missing df = None.
Proof.
  unfold first_missing; generalize FIELDS.
  induction l as [|c l IH]; intros H; cbn [find]; [reflexivity|].
  rewrite (H c) by (left; reflexivity); cbn [negb].
  apply IH; intros col Hin; apply H; right; exact Hin.
Qed.

(** X5.  Loading a workbook whose main sheet and auxiliary sheet (the
    second sheet, or the first when there is no second) both have the
    seven required columns replaces both tables by the seven columns of
    the sheets, one table row per sheet row, every cell an item with
    the value's text; a workbook of one sheet gives two equal tables.
    No message box is opened, one line is written to the console, and
    figure, canvas and recorded calls are as before. *)
Theorem load_excel_replaces_both_tables
    (file_path : string) (main_df : dataframe) (rest : list dataframe)
    (s : App) :
  String.eqb file_path "" = false ->
  let aux_df := hd main_df rest in
  (forall col, In col FIELDS -> has_column col main_df = true) ->
  (forall col, In col FIELDS -> has_column col aux_df = true) ->
  let r := load_excel file_path (Done (main_df :: rest)) s in
  let line := [Lit "[INFO] Excel加载成功："; Lit file_path; Lit nl] in
  exists m a,
    select_fields main_df = Done m
    /\ select_fields aux_df = Done a
    /\ fst r = Done tt
    /\ table_main (snd r) = map (map7 (@Some string)) m
    /\ table_aux (snd r) = map (map7 (@Some string)) a
    /\ length (table_main (snd r)) = length (rows main_df)
    /\ length (table_aux (snd r)) = length (rows aux_df)
    /\ (rest = [] -> table_aux (snd r) = table_main (snd r))
    /\ dialogs (snd r) = dialogs s
    /\ console (snd r) = (console s ++ [(write_colour line, line)])%list
    /\ figure (snd r) = figure s
    /\ canvas (snd r) = canvas s
    /\ calls (snd r) = calls s.
Proof.
  intros Hfp aux_df Hmain Haux; cbv zeta.
  pose proof (first_missing_none_intro main_df Hmain) as Hm.
  pose proof (first_missing_none_intro aux_df Haux) as Ha.
  destruct (select_fields_after_check main_df Hm) as (m & Hsm & Hlm).
  destruct (select_fields_after_check aux_df Ha) as (a & Hsa & Hla).
  exists m, a.
  rewrite (@load_excel_accepts file_path main_df rest s m a Hfp Hm Ha Hsm Hsa).
  split; [exact Hsm|]; split; [exact Hsa|].
  assert (Heq : rest = [] -> a = m).
  { intros ->; unfold aux_df in Hsa; cbn [hd] in Hsa; congruence. }
  destruct s as [tm ta lb co sh fg cv dl cl].
  munfold; unfold dataframe_to_table;
    destruct sh; cbn -[write_colour]; rewrite !length_map;
    repeat split; try assumption; intros E; rewrite (Heq E); reflexivity.
Qed.

Lemma load_excel_replaces_both_tables_witness :
  let sheet := mkDf (FIELDS ++ ["备注"])
                    [["1"; "1"; "0"; "0"; "10"; "0"; "0"; "ok"]] in
  table_main (snd (load_excel "survey.xlsx" (Done [sheet]) init_app))
  = sample_main
  /\ table_aux (snd (load_excel "survey.xlsx" (Done [sheet]) init_app))
     = sample_main.
Proof.
  cbv zeta.
  destruct (@load_excel_replaces_both_tables "survey.xlsx"
              (mkDf (FIELDS ++ ["备注"])
                    [["1"; "1"; "0"; "0"; "10"; "0"; "0"; "ok"]])
              [] init_app eq_refl)
    as (m & a & Hm & Ha & _ & Htm & Hta & _).
  - intros col Hin; cbn in Hin;
      repeat (destruct Hin as [<-|Hin]; [reflexivity|]); destruct Hin.
  - intros col Hin; cbn in Hin;
      repeat (destruct Hin as [<-|Hin]; [reflexivity|]); destruct Hin.
  - rewrite Htm, Hta.
    injection Hm as <-; injection Ha as <-; split; reflexivity.
Defined.

Ltac rewrite_load H :=
  match goal with
  | |- context [load_excel ?f ?x ?s0] => rewrite (H : load_excel f x s0 = _)
  end.

(** X6.  [load_excel] never lets an exception escape, and it replaces
    both tables or neither: whatever the dialog and the file give, the
    handler returns normally, and afterwards either both tables are
    what they were, or the workbook had a first sheet and both tables
    hold the seven columns of its main and auxiliary sheets.  Figure,
    canvas and recorded calls are never touched. *)
Theorem load_excel_all_or_nothing
    (file_path : string) (xls : outcome workbook) (s : App) :
  let r := load_excel file_path xls s in
  fst r = Done tt
  /\ figure (snd r) = figure s
  /\ canvas (snd r) = canvas s
  /\ calls (snd r) = calls s
  /\ ((table_main (snd r) = table_main s /\ table_aux (snd r) = table_aux s)
      \/ (exists main_df rest m a,
             xls = Done (main_df :: rest)
             /\ select_fields main_df = Done m
             /\ select_fields (hd main_df rest) = Done a
             /\ table_main (snd r) = dataframe_to_table m
             /\ table_aux (snd r) = dataframe_to_table a)).
Proof.
  cbv zeta.
  destruct (String.eqb file_path "") eqn:Hfp.
  { apply String.eqb_eq in Hfp; subst file_path.
    rewrite load_excel_cancelled; repeat split; left; split; reflexivity. }
  destruct xls as [[|main_df rest]|e].
  - rewrite_load (@load_excel_no_sheet file_path s Hfp).
    destruct (load_excel_except
                (mkExn IndexError "index is out of bounds for axis 0") s)
      as (H0 & H1 & H2 & _ & _ & _ & H6 & H7 & H8 & _).
    repeat split; try assumption; left; split; assumption.
  - destruct (first_missing main_df) as [col|] eqn:Hm;
      [|destruct (first_missing (hd main_df rest)) as [col|] eqn:Ha].
    + rewrite_load (@load_excel_check file_path main_df rest s Hfp "主数据" col
                      (or_introl (conj Hm eq_refl))).
      destruct (load_excel_except
                  (mkExn ValueError ("主数据" ++ "缺少列: " ++ col))
                  (snd (console_write
                          [Lit "[ERROR] "; Lit "主数据"; Lit "缺少列: "; Lit col; Lit nl]
                          (snd (show_console s)))))
        as (H0 & H1 & H2 & _ & _ & _ & H6 & H7 & H8 & _).
      destruct (show_console_frame s) as (S1 & S2 & _ & _ & S5 & S6 & _ & _).
      unfold console_write, modify in *; cbn [snd table_main table_aux figure
        canvas calls] in *.
      assert (S9 : calls (snd (show_console s)) = calls s)
        by apply calls_show_console.
      repeat split; try congruence; left; split; congruence.
    + rewrite_load (@load_excel_check file_path main_df rest s Hfp "辅助数据" col
                      (or_intror (conj Hm (conj Ha eq_refl)))).
      destruct (load_excel_except
                  (mkExn ValueError ("辅助数据" ++ "缺少列: " ++ col))
                  (snd (console_write
                          [Lit "[ERROR] "; Lit "辅助数据"; Lit "缺少列: "; Lit col; Lit nl]
                          (snd (show_console s)))))
        as (H0 & H1 & H2 & _ & _ & _ & H6 & H7 & H8 & _).
      destruct (show_console_frame s) as (S1 & S2 & _ & _ & S5 & S6 & _ & _).
      unfold console_write, modify in *; cbn [snd table_main table_aux figure
        canvas calls] in *.
      assert (S9 : calls (snd (show_console s)) = calls s)
        by apply calls_show_console.
      repeat split; try congruence; left; split; congruence.
    + destruct (select_fields_after_check main_df Hm) as (m & Hsm & _).
      destruct (select_fields_after_check (hd main_df rest) Ha) as (a & Hsa & _).
      rewrite_load (@load_excel_accepts file_path main_df rest s m a Hfp Hm Ha Hsm Hsa).
      destruct s as [tm ta lb co sh fg cv dl cl].
      munfold; destruct sh; cbn -[write_colour];
        repeat split; right; exists main_df, rest, m, a; repeat split; assumption.
  - rewrite_load (@load_excel_unreadable file_path e s Hfp).
    destruct (load_excel_except e s)
      as (H0 & H1 & H2 & _ & _ & _ & H6 & H7 & H8 & _).
    repeat split; try assumption; left; split; assumption.
Qed.

(** X7.  When the chosen file cannot be opened or parsed, or holds no
    sheet, [load_excel] reports the exception: two lines in the colour
    of errors on the console (the message and the traceback) and a
    message box with the exception's message; both tables and the label
    are what they were. *)
Theorem load_excel_reports_unreadable_file
    (file_path : string) (xls : outcome workbook) (e : exn) (s : App) :
  String.eqb file_path "" = false ->
  xls = Raise e
  \/ (xls = Done [] /\ e = mkExn IndexError "index is out of bounds for axis 0") ->
  let r := load_excel file_path xls s in
  table_main (snd r) = table_main s
  /\ table_aux (snd r) = table_aux s
  /\ label (snd r) = label s
  /\ console (snd r)
     = (console s ++
        [(Red, [Lit "[ERROR] 读取Excel失败:"; Lit nl; Lit (message e); Lit nl]);
         (Red, format_exc e)])%list
  /\ dialogs (snd r)
     = (dialogs s ++ [[Lit "读取Excel失败:"; Lit nl; Lit (message e)]])%list
  /\ console_shown (snd r) = true.
Proof.
  intros Hfp Hx; cbv zeta.
  assert (Hr : load_excel file_path xls s
               = (show_console ;;
                  console_write [Lit "[ERROR] 读取Excel失败:"; Lit nl;
                                 Lit (message e); Lit nl] ;;
                  console_write (format_exc e) ;;
                  message_critical [Lit "读取Excel失败:"; Lit nl; Lit (message e)]) s).
  { destruct Hx as [-> | [-> ->]];
      [apply load_excel_unreadable | apply load_excel_no_sheet]; exact Hfp. }
  rewrite Hr.
  destruct (load_excel_except e s)
    as (_ & H1 & H2 & H3 & H4 & H5 & _ & _ & _ & H9).
  repeat split; assumption.
Qed.

Lemma load_excel_reports_unreadable_file_witness :
  dialogs (snd (load_excel "survey.xlsx"
                  (Raise (mkExn ValueError "File is not a zip file"))
                  init_app))
  = [[Lit "读取Excel失败:"; Lit nl; Lit "File is not a zip file"]].
Proof.
  destruct (@load_excel_reports_unreadable_file "survey.xlsx"
              (Raise (mkExn ValueError "File is not a zip file"))
              (mkExn ValueError "File is not a zip file") init_app
              eq_refl (or_introl eq_refl))
    as (_ & _ & _ & _ & Hd & _).
  exact Hd.
Defined.

(* ================================================================== *)
(** ** Errors of the aggregator, and how the pipeline calls it *)
(* ================================================================== *)

(** X9.  [weighted_average] never returns a value on a matrix without
    rows: with default weights, or with an empty weight vector, NumPy's
    [ZeroDivisionError] (weights sum to zero) is raised; with any other
    weight vector, the [ValueError] of a length that does not fit. *)
Theorem weighted_average_empty_raises (weights : option (list float)) :
  exists e,
    weighted_average [] weights = Raise e
    /\ match weights with
       | None | Some [] => kind e = ZeroDivisionError
       | Some (_ :: _) => kind e = ValueError
       end.
Proof.
  assert (Hz : PrimFloat.eqb (Np.sum []) 0 = true) by reflexivity.
  destruct weights as [[|w ws]|].
  - unfold weighted_average, NpAverage.average_axis0; cbn [map shape0 length Nat.eqb negb].
    rewrite Hz; eexists; split; reflexivity.
  - unfold weighted_average, NpAverage.average_axis0; cbn [map shape0 length Nat.eqb negb].
    eexists; split; reflexivity.
  - unfold weighted_average, NpAverage.average_axis0, Np.ones;
      cbn [repeat map shape0 length Nat.eqb negb].
    rewrite Hz; eexists; split; reflexivity.
Qed.

(** X10.  Given a weight vector whose length is not the number of rows,
    [weighted_average] raises a [ValueError], whatever the values. *)
Theorem weighted_average_length_mismatch (data : matrix) (w : list float) :
  length w <> length data ->
  weighted_average data (Some w)
  = Raise (mkExn ValueError
             "Length of weights not compatible with specified axis.").
Proof.
  intros Hlen; unfold weighted_average, NpAverage.average_axis0, shape0.
  rewrite length_map.
  apply Nat.eqb_neq in Hlen; rewrite Hlen; reflexivity.
Qed.

Lemma weighted_average_length_mismatch_witness :
  weighted_average [mk3 0 0 10]%float (Some [1; 1]%float)
  = Raise (mkExn ValueError
             "Length of weights not compatible with specified axis.").
Proof.
  apply (@weighted_average_length_mismatch
           [mk3 0 0 10]%float [1; 1]%float).
  simpl; lia.
Defined.

Lemma in_pipeline_calls_average main_vec aux_vec aux_geo d w r :
  In (CallAverage d w r) (pipeline_calls main_vec aux_vec aux_geo) ->
  d <> [] /\ w = None /\ r = weighted_average d None
  /\ (2 <= length aux_vec)%nat
  /\ (d = aux_vec
      \/ d = unflagged aux_vec (detect_outliers_zscore aux_vec default_threshold)).
Proof.
  unfold pipeline_calls.
  destruct main_vec as [|m0 mv0]; [intros []|].
  destruct aux_vec as [|a0 [|a1 av]]; [intros [] | |].
  - intros [H|[]]; discriminate H.
  - set (aux_vec := a0 :: a1 :: av).
    intros [H|H]; [discriminate|].
    destruct (Nat.eqb (length aux_geo) (length aux_vec)); [|destruct H].
    cbv zeta in H.
    pose proof (@plural_selection_nonempty _ aux_vec
                  (detect_outliers_zscore aux_vec default_threshold)) as Hne.
    destruct H as [H|H].
    + inversion H; subst d w r; clear H.
      split; [apply Hne; discriminate|].
      split; [reflexivity|]; split; [reflexivity|].
      split; [simpl; lia|].
      destruct (Nat.eqb (shape0 (unflagged aux_vec
                  (detect_outliers_zscore aux_vec default_threshold))) 0);
        [left | right]; reflexivity.
    + match type of H with
      | In _ (match ?x with _ => _ end) => destruct x
      end; [destruct H as [H|[]]; discriminate H | destruct H].
Qed.

Lemma in_pipeline_calls_detect main_vec aux_vec aux_geo d t m :
  In (CallDetect d t m) (pipeline_calls main_vec aux_vec aux_geo) ->
  d = aux_vec /\ t = default_threshold /\ (2 <= length d)%nat
  /\ m = detect_outliers_zscore d t.
Proof.
  unfold pipeline_calls.
  destruct main_vec as [|m0 mv0]; [intros []|].
  destruct aux_vec as [|a0 [|a1 av]]; [intros [] | |].
  - intros [H|[]]; discriminate H.
  - intros [H|H].
    + inversion H; subst; repeat split; simpl; lia.
    + destruct (Nat.eqb (length aux_geo) (length (a0 :: a1 :: av))); [|destruct H].
      destruct H as [H|H]; [discriminate|].
      match type of H with
      | In _ (match ?x with _ => _ end) => destruct x
      end; [destruct H as [H|[]]; discriminate H | destruct H].
Qed.

(** X11.  How a run of [process_and_plot] uses the numerical functions.
    [detect_outliers_zscore] is only ever called on the whole set of
    valid auxiliary vectors, when there are at least two, with the
    default threshold.  [weighted_average] is only ever called with
    default weights on a matrix that has a row, so that it returns a
    value: the error of an empty matrix cannot occur.  A run makes at
    most three calls. *)
Theorem process_and_plot_call_discipline
    (to_numeric : string -> float) (s : App) :
  let aux_vec := valid_vectors to_numeric (table_aux s) in
  exists new,
    calls (snd (process_and_plot to_numeric s)) = (calls s ++ new)%list
    /\ (length new <= 3)%nat
    /\ (forall d t m,
           In (CallDetect d t m) new ->
           d = aux_vec /\ (2 <= length d)%nat /\ t = default_threshold)
    /\ (forall d w r,
           In (CallAverage d w r) new ->
           d <> [] /\ w = None /\ exists v, r = Done v).
Proof.
  cbv zeta.
  eexists; split; [apply process_and_plot_calls|].
  split; [|split].
  - unfold pipeline_calls.
    destruct (valid_vectors to_numeric (table_main s)) as [|m0 mv];
      [simpl; lia|].
    destruct (valid_vectors to_numeric (table_aux s)) as [|a0 [|a1 av]];
      [simpl; lia | simpl; lia |].
    cbv zeta.
    destruct (Nat.eqb _ _); [|simpl; lia].
    match goal with
    | |- context [match ?x with Done _ => _ | Raise _ => _ end] => destruct x
    end; simpl; lia.
  - intros d t m Hin.
    apply in_pipeline_calls_detect in Hin.
    destruct Hin as (H1 & H2 & H3 & _); repeat split; assumption.
  - intros d w r Hin.
    apply in_pipeline_calls_average in Hin.
    destruct Hin as (H1 & H2 & H3 & _).
    split; [exact H1|]; split; [exact H2|].
    destruct (weighted_average_default_total H1) as [v Hv].
    exists v; congruence.
Qed.

(* ================================================================== *)
(** ** Appending rows *)
(* ================================================================== *)

Lemma valid_vectors_app (to_numeric : string -> float) (t1 t2 : table) :
  valid_vectors to_numeric (t1 ++ t2)%list
  = (valid_vectors to_numeric t1 ++ valid_vectors to_numeric t2)%list.
Proof.
  unfold valid_vectors, dropna3, vector_columns, table_to_dataframe.
  rewrite !map_app, filter_app; reflexivity.
Qed.

Lemma valid_positions_app (to_numeric : string -> float) (t1 t2 : table) :
  valid_positions to_numeric (t1 ++ t2)%list
  = (valid_positions to_numeric t1 ++ valid_positions to_numeric t2)%list.
Proof.
  unfold valid_positions, dropna4, geo_columns, table_to_dataframe.
  rewrite !map_app, filter_app; reflexivity.
Qed.

(** X12.  Appending a row to a table ([add_main_row], [add_aux_row])
    adds one row at the end of that table and changes nothing else: the
    other table, the label, the console and whether it is shown, the
    figure, the canvas, the message boxes and the recorded calls are as
    before, and the handler returns.  As long as the empty text is no
    number, the new row is not a valid row, so the vectors and
    positions the pipeline extracts, and with them the calls of the
    next run, are the same as before. *)
Theorem add_row_is_ignored_by_pipeline (to_numeric : string -> float) (s : App) :
  to_numeric "" = PrimFloat.nan ->
  let sm := snd (add_main_row s) in
  let sa := snd (add_aux_row s) in
  add_main_row s
  = (Done tt,
     mkApp (table_main s ++ [empty_row])%list (table_aux s) (label s)
           (console s) (console_shown s) (figure s) (canvas s)
           (dialogs s) (calls s))
  /\ add_aux_row s
     = (Done tt,
        mkApp (table_main s) (table_aux s ++ [empty_row])%list (label s)
              (console s) (console_shown s) (figure s) (canvas s)
              (dialogs s) (calls s))
  /\ table_main sm = (table_main s ++ [empty_row])%list
  /\ table_aux sm = table_aux s
  /\ label sm = label s /\ console sm = console s
  /\ console_shown sm = console_shown s
  /\ figure sm = figure s /\ canvas sm = canvas s
  /\ dialogs sm = dialogs s /\ calls sm = calls s
  /\ table_aux sa = (table_aux s ++ [empty_row])%list
  /\ table_main sa = table_main s
  /\ label sa = label s /\ console sa = console s
  /\ console_shown sa = console_shown s
  /\ figure sa = figure s /\ canvas sa = canvas s
  /\ dialogs sa = dialogs s /\ calls sa = calls s
  /\ valid_vectors to_numeric (table_main sm)
     = valid_vectors to_numeric (table_main s)
  /\ valid_positions to_numeric (table_main sm)
     = valid_positions to_numeric (table_main s)
  /\ valid_vectors to_numeric (table_aux sa)
     = valid_vectors to_numeric (table_aux s)
  /\ valid_positions to_numeric (table_aux sa)
     = valid_positions to_numeric (table_aux s)
  /\ calls (snd (process_and_plot to_numeric sm))
     = calls (snd (process_and_plot to_numeric s))
  /\ calls (snd (process_and_plot to_numeric sa))
     = calls (snd (process_and_plot to_numeric s)).
Proof.
  intros Hblank; cbv zeta.
  assert (Hv : valid_vectors to_numeric [empty_row] = []).
  { unfold valid_vectors, table_to_dataframe, vector_columns, dropna3.
    cbn [map map7 empty_row f_x f_y f_z filter vx vy vz].
    rewrite Hblank; reflexivity. }
  assert (Hp : valid_positions to_numeric [empty_row] = []).
  { unfold valid_positions, table_to_dataframe, geo_columns, dropna4.
    cbn [map map7 empty_row f_lon f_lat f_depth f_elev filter
         g_lon g_lat g_depth g_elev].
    rewrite Hblank; reflexivity. }
  assert (Hsm : add_main_row s
                = (Done tt,
                   mkApp (table_main s ++ [empty_row])%list (table_aux s) (label s)
                         (console s) (console_shown s) (figure s) (canvas s)
                         (dialogs s) (calls s))) by reflexivity.
  assert (Hsa : add_aux_row s
                = (Done tt,
                   mkApp (table_main s) (table_aux s ++ [empty_row])%list (label s)
                         (console s) (console_shown s) (figure s) (canvas s)
                         (dialogs s) (calls s))) by reflexivity.
  rewrite !process_and_plot_calls, Hsm, Hsa.
  cbn [snd table_main table_aux label console console_shown figure canvas
       dialogs calls].
  rewrite !valid_vectors_app, !valid_positions_app, Hv, Hp, !app_nil_r.
  repeat split.
Qed.

Lemma add_row_is_ignored_by_pipeline_witness :
  valid_vectors decimal_to_numeric
    (table_main (snd (add_main_row (app_with sample_main sample_aux))))
  = valid_vectors decimal_to_numeric sample_main.
Proof.
  destruct (@add_row_is_ignored_by_pipeline decimal_to_numeric
              (app_with sample_main sample_aux) eq_refl)
    as (_ & _ & _ & _ & _ & _ & _ & _ & _ & _ & _ & _ & _ & _ & _ & _ & _
        & _ & _ & _ & H & _).
  exact H.
Defined.

